(** * BESS Modbus simulator: the register codec, the register banks and the
      synchronisation loop of [server.py], embedded and verified.

    Python integers are unbounded, so register words and 32-bit values are
    modelled as [Z]; [>>], [<<] and [&] are [Z.shiftr], [Z.shiftl] and
    [Z.land], which agree with Python on negative operands (floor shift,
    two's-complement mask).  Each sparse data block is a finite map from
    address to word. *)

From Stdlib Require Import ZArith QArith Qround Lia Lqa List.
From stdpp Require Import gmap.
Import ListNotations.
Local Open Scope Z_scope.

(** ** Codec *)

Module Codec.

(** [split_int32_be(value)]: the list [[hi, lo]]. *)
Definition split_int32_be (value : Z) : list Z :=
  let hi := Z.land (Z.shiftr value 16) 0xFFFF in
  let lo := Z.land value 0xFFFF in
  [hi; lo].

(** [merge_int32_be(hi, lo)]. *)
Definition merge_int32_be (hi lo : Z) : Z :=
  let result := Z.shiftl hi 16 + lo in
  if result >? 0x7FFFFFFF then result - 0x100000000 else result.

(** A register word as the wire carries it. *)
Definition word16 (w : Z) : Prop := 0 <= w <= 0xFFFF.

Definition int32 (v : Z) : Prop := - 2 ^ 31 <= v <= 2 ^ 31 - 1.

End Codec.

(** ** Register banks *)

Module Datastore.

Inductive bank := Coils | DiscreteInputs | InputRegisters | HoldingRegisters.

(** The dictionary literal of [BessDataBlock.__init__], in source order. *)
Definition values : list (Z * Z) :=
  [ (0xd000, 0); (0xd001, 0); (0xd002, 0); (0xd003, 0); (0xd004, 0);
    (0xd005, 0); (0xd006, 0); (0xd007, 0); (0xd00a, 0); (0xd00b, 0);
    (0x2502, 0); (0x2503, 0); (0x2504, 5000); (0x2505, 0);
    (0x2518, 0); (0x2519, 0); (0x251a, 0); (0x251b, 0) ].

(** [BessDataBlock()]: a fresh sparse block holding [values]. *)
Definition BessDataBlock : gmap Z Z := list_to_map values.

(** The addresses the register table declares. *)
Definition table_addresses : list Z := values.*1.

(** Modelled from the spec: the sparse data block and the slave context come
    from the protocol library, which is not part of the sources.  Section 4.3
    gives the contract: [read(bank, address, count)] and
    [write(bank, address, values)], only declared addresses are valid, an
    access that touches an undeclared address fails with an addressing
    error, and a write of several registers is applied as one operation. *)
Definition declared (blk : gmap Z Z) (a : Z) : bool :=
  bool_decide (is_Some (blk !! a)).

Definition validate (blk : gmap Z Z) (address count : Z) : bool :=
  forallb (declared blk) (seqZ address count).

Definition block_getValues (blk : gmap Z Z) (address count : Z)
  : option (list Z) :=
  mapM (fun a => blk !! a) (seqZ address count).

Fixpoint store_words (blk : gmap Z Z) (address : Z) (words : list Z)
  : gmap Z Z :=
  match words with
  | [] => blk
  | w :: ws => store_words (<[address := w]> blk) (address + 1) ws
  end.

Definition block_setValues (blk : gmap Z Z) (address : Z) (words : list Z)
  : option (gmap Z Z) :=
  if validate blk address (Z.of_nat (length words))
  then Some (store_words blk address words) else None.

(** [ModbusSlaveContext(hr=..., ir=..., co=..., di=..., zero_mode=True)]:
    four blocks, addressed without offset. *)
Record slave_context := SlaveContext {
  hr : gmap Z Z;
  ir : gmap Z Z;
  co : gmap Z Z;
  di : gmap Z Z
}.

Definition store : slave_context :=
  {| hr := BessDataBlock; ir := BessDataBlock;
     co := BessDataBlock; di := BessDataBlock |}.

Definition block_of (b : bank) (c : slave_context) : gmap Z Z :=
  match b with
  | HoldingRegisters => hr c
  | InputRegisters => ir c
  | Coils => co c
  | DiscreteInputs => di c
  end.

Definition with_block (b : bank) (blk : gmap Z Z) (c : slave_context)
  : slave_context :=
  match b with
  | HoldingRegisters => {| hr := blk; ir := ir c; co := co c; di := di c |}
  | InputRegisters => {| hr := hr c; ir := blk; co := co c; di := di c |}
  | Coils => {| hr := hr c; ir := ir c; co := blk; di := di c |}
  | DiscreteInputs => {| hr := hr c; ir := ir c; co := co c; di := blk |}
  end.

(** Modelled from the spec: the bank a Modbus function code addresses
    (section 6: 3 reads and 6/16 write holding registers, 4 reads input
    registers; 1, 5, 15 and 2 are the standard codes of the two bit banks). *)
Definition decode (fx : Z) : option bank :=
  if bool_decide (fx = 3 \/ fx = 6 \/ fx = 16) then Some HoldingRegisters
  else if bool_decide (fx = 4) then Some InputRegisters
  else if bool_decide (fx = 1 \/ fx = 5 \/ fx = 15) then Some Coils
  else if bool_decide (fx = 2) then Some DiscreteInputs
  else None.

End Datastore.

(** ** The synchronisation loop *)

Module Server.
Import Codec Datastore.

(** What the tick body can raise; all are subclasses of Python's
    [Exception]. *)
Inductive exn :=
| AddressingError (b : bank) (address : Z)
| UnknownFunction (fx : Z)
| IndexError.

Inductive level := DEBUG | INFO | WARNING | ERROR.

Inductive message :=
| WatchdogReceived (watchdog_32 : Z)
| WatchdogTimeout
| UpdaterError (e : exn).

(** What the loop does to the outside world, oldest first. *)
Inductive action :=
| Log (l : level) (m : message)
| Sleep (seconds : Z).

(** The module-level state: [context], the globals [soc_value] and
    [watchdog_timeout], and the actions performed so far. *)
Record sim := Sim {
  context : slave_context;
  soc_value : Z;
  watchdog_timeout : Z;
  output : list action
}.

Definition startup : sim :=
  {| context := store; soc_value := 5000; watchdog_timeout := 0;
     output := [] |}.

(** State and exception monad; a raise keeps the writes made before it. *)
Inductive outcome (A : Type) :=
| Return (a : A)
| Raise (e : exn).
Arguments Return {A} a.
Arguments Raise {A} e.

Definition M (A : Type) : Type := sim -> outcome A * sim.

#[global] Instance M_ret : MRet M := fun A a s => (Return a, s).

#[global] Instance M_bind : MBind M := fun A B f m s =>
  match m s with
  | (Return a, s') => f a s'
  | (Raise e, s') => (Raise e, s')
  end.

Definition raise {A} (e : exn) : M A := fun s => (Raise e, s).

Definition gets {A} (f : sim -> A) : M A := fun s => (Return (f s), s).

Definition set_context (c : slave_context) : M unit := fun s =>
  (Return tt, {| context := c; soc_value := soc_value s;
                 watchdog_timeout := watchdog_timeout s;
                 output := output s |}).

Definition set_soc_value (v : Z) : M unit := fun s =>
  (Return tt, {| context := context s; soc_value := v;
                 watchdog_timeout := watchdog_timeout s;
                 output := output s |}).

Definition set_watchdog_timeout (v : Z) : M unit := fun s =>
  (Return tt, {| context := context s; soc_value := soc_value s;
                 watchdog_timeout := v; output := output s |}).

Definition perform (a : action) : M unit := fun s =>
  (Return tt, {| context := context s; soc_value := soc_value s;
                 watchdog_timeout := watchdog_timeout s;
                 output := output s ++ [a] |}).

Definition log (l : level) (m : message) : M unit := perform (Log l m).

Definition sleep (seconds : Z) : M unit := perform (Sleep seconds).

(** [context[0].getValues(fx, address, count=count)] *)
Definition getValues (fx address count : Z) : M (list Z) :=
  match decode fx with
  | None => raise (UnknownFunction fx)
  | Some b =>
      c ← gets context;
      match block_getValues (block_of b c) address count with
      | Some words => mret words
      | None => raise (AddressingError b address)
      end
  end.

(** [context[0].setValues(fx, address, words)] *)
Definition setValues (fx address : Z) (words : list Z) : M unit :=
  match decode fx with
  | None => raise (UnknownFunction fx)
  | Some b =>
      c ← gets context;
      match block_setValues (block_of b c) address words with
      | Some blk => set_context (with_block b blk c)
      | None => raise (AddressingError b address)
      end
  end.

(** The subscript [[0]] on a returned list. *)
Definition item0 (m : M (list Z)) : M Z :=
  words ← m;
  match words with
  | w :: _ => mret w
  | [] => raise IndexError
  end.

(** [time.time() % 60] on a clock reading in seconds. *)
Definition mod60 (t : Q) : Q := (t - inject_Z (60 * Qfloor (t / 60)))%Q.

Definition soc_direction (now : Q) : Z :=
  if negb (Qle_bool 30 (mod60 now)) then -1 else 1.

(** The body of the [try] in [updater]; [now] is what [time.time()]
    returns in this tick. *)
Definition updater_body (now : Q) : M unit :=
  cmd_lo ← item0 (getValues 3 0xd002 1);
  cmd_hi ← item0 (getValues 3 0xd003 1);
  let cmd_32 := merge_int32_be cmd_lo cmd_hi in
  setValues 4 0x2502 (split_int32_be cmd_32);;
  p_cmd_lo ← item0 (getValues 3 0xd004 1);
  p_cmd_hi ← item0 (getValues 3 0xd005 1);
  let p_cmd_32 := merge_int32_be p_cmd_lo p_cmd_hi in
  setValues 4 0x2518 (split_int32_be p_cmd_32);;
  q_cmd_lo ← item0 (getValues 3 0xd006 1);
  q_cmd_hi ← item0 (getValues 3 0xd007 1);
  let q_cmd_32 := merge_int32_be q_cmd_lo q_cmd_hi in
  setValues 4 0x251a (split_int32_be q_cmd_32);;
  wd_lo ← item0 (getValues 3 0xd000 1);
  wd_hi ← item0 (getValues 3 0xd001 1);
  let watchdog_32 := merge_int32_be wd_lo wd_hi in
  (if bool_decide (watchdog_32 <> 0) then
     set_watchdog_timeout 0;;
     log DEBUG (WatchdogReceived watchdog_32)
   else
     wt ← gets watchdog_timeout;
     set_watchdog_timeout (wt + 1);;
     wt ← gets watchdog_timeout;
     if bool_decide (wt > 10) then log WARNING WatchdogTimeout
     else mret tt);;
  sv ← gets soc_value;
  set_soc_value (sv + soc_direction now);;
  sv ← gets soc_value;
  set_soc_value (Z.max 1000 (Z.min 9500 sv));;
  sv ← gets soc_value;
  setValues 4 0x2504 (split_int32_be sv).

(** [try: body except Exception as e: handler(e)] *)
Definition try_except (body : M unit) (handler : exn -> M unit) : M unit :=
  fun s =>
    match body s with
    | (Return _, s') => (Return tt, s')
    | (Raise e, s') => handler e s'
    end.

(** One turn of [while True]. *)
Definition updater_iteration (now : Q) : M unit :=
  try_except (updater_body now) (fun e => log ERROR (UpdaterError e));;
  sleep 1.

(** The [while True] of [updater()], run for as many turns as there are
    clock readings. *)
Fixpoint updater (clock : list Q) : M unit :=
  match clock with
  | [] => mret tt
  | now :: later => updater_iteration now;; updater later
  end.

(** Modelled from the spec: the protocol server is the protocol library's.
    A request names a function code; the server checks the addressed range
    against the bank and answers with an exception response for illegal data
    address (code 2) when an address is undeclared, otherwise it reads or
    writes the bank (sections 4.3, 6 and 7). *)
Inductive request :=
| Read (fx address count : Z)
| Write (fx address : Z) (words : list Z).

Inductive response :=
| Registers (words : list Z)
| Written
| ExceptionResponse (code : Z).

Definition IllegalFunction : Z := 1.
Definition IllegalAddress : Z := 2.

Definition reads (fx : Z) : bool :=
  bool_decide (fx = 1 \/ fx = 2 \/ fx = 3 \/ fx = 4).

Definition writes (fx : Z) : bool :=
  bool_decide (fx = 5 \/ fx = 6 \/ fx = 15 \/ fx = 16).

Definition execute (r : request) (c : slave_context)
  : response * slave_context :=
  match r with
  | Read fx address count =>
      match decode fx with
      | Some b =>
          if reads fx then
            match block_getValues (block_of b c) address count with
            | Some words => (Registers words, c)
            | None => (ExceptionResponse IllegalAddress, c)
            end
          else (ExceptionResponse IllegalFunction, c)
      | None => (ExceptionResponse IllegalFunction, c)
      end
  | Write fx address words =>
      match decode fx with
      | Some b =>
          if writes fx then
            match block_setValues (block_of b c) address words with
            | Some blk => (Written, with_block b blk c)
            | None => (ExceptionResponse IllegalAddress, c)
            end
          else (ExceptionResponse IllegalFunction, c)
      | None => (ExceptionResponse IllegalFunction, c)
      end
  end.

(** The words of a request come off the wire: each is 16 bits wide. *)
Definition wire_request (r : request) : Prop :=
  match r with
  | Read _ _ _ => True
  | Write _ _ words => Forall word16 words
  end.

(** A history of the server: turns of the loop and client requests, each
    running to completion before the next begins. *)
Inductive event :=
| Tick (now : Q)
| Client (r : request).

Definition wire_event (e : event) : Prop :=
  match e with
  | Tick _ => True
  | Client r => wire_request r
  end.

Definition step (s : sim) (e : event) : sim :=
  match e with
  | Tick now => (updater_iteration now s).2
  | Client r =>
      {| context := (execute r (context s)).2; soc_value := soc_value s;
         watchdog_timeout := watchdog_timeout s; output := output s |}
  end.

Definition run (s : sim) (history : list event) : sim :=
  foldl step s history.

End Server.

(** ** Predicates and closed forms used in the statements *)

Module Properties.
Import Codec Datastore Server.

(** The word a block holds at an address (0 where it holds none). *)
Definition word (blk : gmap Z Z) (a : Z) : Z := default 0 (blk !! a).

(** The logical 32-bit value of the register pair at [a], [a + 1]: the high
    word at the lower address, the low word at the higher one. *)
Definition logical (blk : gmap Z Z) (a : Z) : option Z :=
  hi ← blk !! a; lo ← blk !! (a + 1); Some (merge_int32_be hi lo).

(** Every bank declares exactly the addresses of [BessDataBlock], and the
    holding bank holds 16-bit words. *)
Definition well_formed (c : slave_context) : Prop :=
  dom (hr c) = dom BessDataBlock /\ dom (ir c) = dom BessDataBlock /\
  dom (co c) = dom BessDataBlock /\ dom (di c) = dom BessDataBlock /\
  map_Forall (fun _ w => word16 w) (hr c).

(** The states the server passes through after [startup]. *)
Definition reachable (s : sim) : Prop :=
  exists history, Forall wire_event history /\ s = run startup history.

Definition set_ir (blk : gmap Z Z) (s : sim) : sim :=
  {| context := with_block InputRegisters blk (context s);
     soc_value := soc_value s; watchdog_timeout := watchdog_timeout s;
     output := output s |}.

(** One mirror step of the tick: the pair at [src] of the holding bank,
    decoded, encoded again and stored at [dst]. *)
Definition mirror (c : slave_context) (src dst : Z) (blk : gmap Z Z)
  : gmap Z Z :=
  store_words blk dst
    (split_int32_be (merge_int32_be (word (hr c) src) (word (hr c) (src + 1)))).

(** Closed form of a tick body that raises nothing. *)
Definition tick_effect (now : Q) (s : sim) : sim :=
  let c := context s in
  let watchdog_32 := merge_int32_be (word (hr c) 0xd000) (word (hr c) 0xd001) in
  let soc := Z.max 1000 (Z.min 9500 (soc_value s + soc_direction now)) in
  {| context :=
       with_block InputRegisters
         (store_words
            (mirror c 0xd006 0x251a
               (mirror c 0xd004 0x2518 (mirror c 0xd002 0x2502 (ir c))))
            0x2504 (split_int32_be soc)) c;
     soc_value := soc;
     watchdog_timeout :=
       if bool_decide (watchdog_32 <> 0) then 0 else watchdog_timeout s + 1;
     output :=
       output s ++
       (if bool_decide (watchdog_32 <> 0)
        then [Log DEBUG (WatchdogReceived watchdog_32)]
        else if bool_decide (watchdog_timeout s + 1 > 10)
             then [Log WARNING WatchdogTimeout] else []) |}.

(** In every tick of the history the watchdog pair decodes to zero. *)
Fixpoint watchdog_silent (s : sim) (history : list event) : Prop :=
  match history with
  | [] => True
  | e :: later =>
      match e with
      | Tick _ => logical (hr (context s)) 0xd000 = Some 0
      | Client _ => True
      end /\ watchdog_silent (step s e) later
  end.

(** How many turns of the loop a history holds. *)
Fixpoint ticks (history : list event) : nat :=
  match history with
  | [] => 0
  | Tick _ :: later => S (ticks later)
  | Client _ :: later => ticks later
  end.

(** How many times a list of actions sleeps for [seconds]. *)
Fixpoint sleeps (seconds : Z) (actions : list action) : nat :=
  match actions with
  | [] => 0
  | Sleep d :: later =>
      if bool_decide (d = seconds) then S (sleeps seconds later)
      else sleeps seconds later
  | Log _ _ :: later => sleeps seconds later
  end.

(** The input pair at [dst] holds the very words of the holding pair at
    [src]. *)
Definition mirrors (c : slave_context) (src dst : Z) : Prop :=
  exists hi lo,
    hr c !! src = Some hi /\ hr c !! (src + 1) = Some lo /\
    ir c !! dst = Some hi /\ ir c !! (dst + 1) = Some lo.

(** A computation that moves every state along the relation [R], whether
    it returns or raises. *)
Definition keeps (R : sim -> sim -> Prop) {A} (m : M A) : Prop :=
  forall s, R s (m s).2.

(** The holding, coil and discrete-input banks are the same in both states. *)
Definition same_other_banks (s s' : sim) : Prop :=
  hr (context s') = hr (context s) /\ co (context s') = co (context s) /\
  di (context s') = di (context s).

(** The second state has performed the actions of the first and then only
    logged. *)
Definition only_logged (s s' : sim) : Prop :=
  exists logs, output s' = output s ++ logs /\ sleeps 1 logs = 0%nat.

(** Encoding [v] gives a pair of words that decodes to [v]. *)
Definition roundtrips (v : Z) : Prop :=
  exists hi lo, split_int32_be v = [hi; lo] /\ merge_int32_be hi lo = v.

(** The addresses the register table gives to the input bank. *)
Definition input_addresses : list Z :=
  [0x2502; 0x2503; 0x2504; 0x2505; 0x2518; 0x2519; 0x251a; 0x251b].

(** The state with its counter of silent turns replaced. *)
Definition with_watchdog_timeout (wt : Z) (s : sim) : sim :=
  (set_watchdog_timeout wt s).2.

(** What a turn logs about the watchdog, given the decoded pair and the
    counter before the turn. *)
Definition watchdog_logs (watchdog_32 wt : Z) : list action :=
  if bool_decide (watchdog_32 <> 0)
  then [Log DEBUG (WatchdogReceived watchdog_32)]
  else if bool_decide (wt + 1 > 10)
       then [Log WARNING WatchdogTimeout] else [].

(** A state whose holding bank declares nothing. *)
Definition unplugged : sim :=
  {| context := {| hr := ∅; ir := BessDataBlock;
                   co := BessDataBlock; di := BessDataBlock |};
     soc_value := 5000; watchdog_timeout := 0; output := [] |}.

(** The signed 32-bit value congruent to [v] modulo 2^32. *)
Definition wrap32 (v : Z) : Z := (v + 2 ^ 31) mod 2 ^ 32 - 2 ^ 31.

(** How many watchdog warnings a list of actions holds. *)
Fixpoint warnings (actions : list action) : nat :=
  match actions with
  | [] => 0
  | Log WARNING WatchdogTimeout :: later => S (warnings later)
  | _ :: later => warnings later
  end.

(** How many tick errors a list of actions holds. *)
Fixpoint errors (actions : list action) : nat :=
  match actions with
  | [] => 0
  | Log ERROR (UpdaterError _) :: later => S (errors later)
  | _ :: later => errors later
  end.

(** Every turn of the history moves the state of charge in direction [d]. *)
Definition heading (d : Z) (history : list event) : Prop :=
  Forall (fun e => match e with
                   | Tick now => soc_direction now = d
                   | Client _ => True
                   end) history.

(** The turns of a history, without the client requests between them. *)
Fixpoint turns_only (history : list event) : list event :=
  match history with
  | [] => []
  | Tick now :: later => Tick now :: turns_only later
  | Client _ :: later => turns_only later
  end.

(** The state with one word of the holding bank replaced. *)
Definition poke_hr (a w : Z) (s : sim) : sim :=
  {| context :=
       with_block HoldingRegisters (<[a := w]> (hr (context s))) (context s);
     soc_value := soc_value s; watchdog_timeout := watchdog_timeout s;
     output := output s |}.

(** The holding addresses a turn of the loop reads. *)
Definition read_addresses : list Z :=
  [0xd000; 0xd001; 0xd002; 0xd003; 0xd004; 0xd005; 0xd006; 0xd007].

(** The input addresses that mirror a command. *)
Definition mirror_addresses : list Z :=
  [0x2502; 0x2503; 0x2518; 0x2519; 0x251a; 0x251b].

(** The register table as section 4.2 of the specification words it: each
    register with the one bank it is declared for, none for the coil and
    discrete-input banks. *)
Definition spec_register_table : list (bank * Z) :=
  [ (HoldingRegisters, 0xd000); (HoldingRegisters, 0xd001);
    (HoldingRegisters, 0xd002); (HoldingRegisters, 0xd003);
    (HoldingRegisters, 0xd004); (HoldingRegisters, 0xd005);
    (HoldingRegisters, 0xd006); (HoldingRegisters, 0xd007);
    (HoldingRegisters, 0xd00a); (HoldingRegisters, 0xd00b);
    (InputRegisters, 0x2502); (InputRegisters, 0x2503);
    (InputRegisters, 0x2504); (InputRegisters, 0x2505);
    (InputRegisters, 0x2518); (InputRegisters, 0x2519);
    (InputRegisters, 0x251a); (InputRegisters, 0x251b) ].

End Properties.

(** ** Facts about the codec *)

Module CodecFacts.
Import Codec.

Lemma split_int32_be_arith (v : Z) :
  split_int32_be v = [(v / 65536) mod 65536; v mod 65536].
Proof.
  unfold split_int32_be; cbv zeta.
  change 0xFFFF with (Z.ones 16).
  rewrite !Z.land_ones, Z.shiftr_div_pow2 by lia.
  reflexivity.
Qed.

Lemma merge_int32_be_arith (hi lo : Z) :
  merge_int32_be hi lo =
  if hi * 65536 + lo >? 2147483647
  then hi * 65536 + lo - 4294967296 else hi * 65536 + lo.
Proof.
  unfold merge_int32_be; cbv zeta.
  rewrite Z.shiftl_mul_pow2 by lia. reflexivity.
Qed.

(** Decoding two wire words and encoding the result gives the words back. *)
Lemma split_merge (hi lo : Z) :
  word16 hi -> word16 lo -> split_int32_be (merge_int32_be hi lo) = [hi; lo].
Proof.
  unfold word16. intros Hhi Hlo.
  rewrite merge_int32_be_arith, split_int32_be_arith.
  destruct (hi * 65536 + lo >? 2147483647); f_equal; [| f_equal | | f_equal];
    Z.to_euclidean_division_equations; lia.
Qed.

Lemma merge_split (v : Z) :
  int32 v ->
  match split_int32_be v with
  | [hi; lo] => merge_int32_be hi lo = v
  | _ => False
  end.
Proof.
  unfold int32. intros Hv.
  rewrite split_int32_be_arith, merge_int32_be_arith.
  destruct (Z.gtb_spec ((v / 65536) mod 65536 * 65536 + v mod 65536) 2147483647);
    Z.to_euclidean_division_equations; lia.
Qed.

Lemma split_int32_be_small (v : Z) :
  word16 v -> split_int32_be v = [0; v].
Proof.
  unfold word16. intros Hv. rewrite split_int32_be_arith.
  f_equal; [| f_equal]; Z.to_euclidean_division_equations; lia.
Qed.

Lemma merge_int32_be_small (v : Z) : word16 v -> merge_int32_be 0 v = v.
Proof.
  unfold word16. intros Hv. rewrite merge_int32_be_arith.
  destruct (Z.gtb_spec (0 * 65536 + v) 2147483647); lia.
Qed.

End CodecFacts.

(** ** Facts about the sparse blocks *)

Module DatastoreFacts.
Import Codec Datastore.

Lemma declared_dom (blk : gmap Z Z) (a : Z) :
  declared blk a = true <-> a ∈ dom blk.
Proof.
  unfold declared. rewrite bool_decide_eq_true. symmetry. apply elem_of_dom.
Qed.

Lemma validate_dom (blk : gmap Z Z) (address count : Z) :
  validate blk address count = true <->
  forall k, address <= k < address + count -> k ∈ dom blk.
Proof.
  unfold validate. rewrite forallb_forall. split.
  - intros H k Hk. apply declared_dom, H, list_elem_of_In, elem_of_seqZ, Hk.
  - intros H k Hk. apply declared_dom, H, elem_of_seqZ, list_elem_of_In, Hk.
Qed.

Lemma validate_same_dom (blk blk' : gmap Z Z) (address count : Z) :
  dom blk = dom blk' -> validate blk address count = validate blk' address count.
Proof.
  intros Hd. apply eq_true_iff_eq. rewrite !validate_dom, Hd. reflexivity.
Qed.

Lemma dom_store_words (blk : gmap Z Z) (address : Z) (words : list Z) :
  validate blk address (Z.of_nat (length words)) = true ->
  dom (store_words blk address words) = dom blk.
Proof.
  revert blk address. induction words as [| w ws IH]; intros blk a Hv; [done |].
  cbn [store_words]. rewrite validate_dom in Hv.
  assert (Ha : a ∈ dom blk) by (apply Hv; cbn [length]; lia).
  assert (Hd : dom (<[a := w]> blk) = dom blk).
  { rewrite dom_insert_L. apply subseteq_union_1_L, singleton_subseteq_l, Ha. }
  rewrite IH, Hd; [done |].
  apply validate_dom. intros k Hk. rewrite Hd. apply Hv. cbn [length]. lia.
Qed.

Lemma store_words_Forall (P : Z -> Prop) (blk : gmap Z Z) (address : Z)
    (words : list Z) :
  map_Forall (fun _ w => P w) blk -> Forall P words ->
  map_Forall (fun _ w => P w) (store_words blk address words).
Proof.
  intros Hblk Hws. revert blk address Hblk.
  induction Hws as [| w ws Hw _ IH]; intros blk a Hblk; [done |].
  cbn [store_words]. apply IH, map_Forall_insert_2; done.
Qed.

Lemma block_getValues_1 (blk : gmap Z Z) (a w : Z) :
  blk !! a = Some w -> block_getValues blk a 1 = Some [w].
Proof.
  intros H. unfold block_getValues.
  change (seqZ a 1) with [a]. simpl. rewrite H. reflexivity.
Qed.

Lemma block_getValues_is_Some (blk : gmap Z Z) (address count : Z) :
  is_Some (block_getValues blk address count) <->
  validate blk address count = true.
Proof.
  unfold block_getValues, validate.
  rewrite mapM_is_Some, forallb_forall, Forall_forall.
  split; intros H k Hk.
  - apply bool_decide_eq_true, (H k), list_elem_of_In, Hk.
  - apply list_elem_of_In in Hk.
    specialize (H k Hk). apply bool_decide_eq_true in H. exact H.
Qed.

Lemma block_getValues_undeclared (blk : gmap Z Z) (address count k : Z) :
  address <= k < address + count -> k ∉ dom blk ->
  block_getValues blk address count = None.
Proof.
  intros Hk Hn. apply eq_None_not_Some. rewrite block_getValues_is_Some.
  rewrite validate_dom. intros H. apply Hn, H, Hk.
Qed.

Lemma block_setValues_undeclared (blk : gmap Z Z) (address k : Z)
    (words : list Z) :
  address <= k < address + Z.of_nat (length words) -> k ∉ dom blk ->
  block_setValues blk address words = None.
Proof.
  intros Hk Hn. unfold block_setValues.
  destruct (validate blk address _) eqn:E; [| done].
  rewrite validate_dom in E. destruct Hn. apply E, Hk.
Qed.

Lemma block_setValues_valid (blk : gmap Z Z) (address : Z) (words : list Z) :
  validate blk address (Z.of_nat (length words)) = true ->
  block_setValues blk address words = Some (store_words blk address words).
Proof. intros H. unfold block_setValues. rewrite H. reflexivity. Qed.

Lemma table_addresses_dom (a : Z) :
  a ∈ dom BessDataBlock <-> In a table_addresses.
Proof.
  unfold BessDataBlock, table_addresses.
  rewrite dom_list_to_map_L, elem_of_list_to_set, list_elem_of_In.
  reflexivity.
Qed.

End DatastoreFacts.

(** ** Facts about the loop *)

Module ServerFacts.
Import Codec Datastore Server Properties CodecFacts DatastoreFacts.

Lemma bind_Return {A B} (m : M A) (f : A -> M B) (s s' : sim) (a : A) :
  m s = (Return a, s') -> (m ≫= f) s = f a s'.
Proof. intros H. unfold mbind, M_bind. rewrite H. reflexivity. Qed.

Lemma declared_word (blk : gmap Z Z) (a : Z) :
  dom blk = dom BessDataBlock -> In a table_addresses ->
  blk !! a = Some (word blk a).
Proof.
  intros Hd Ha. apply table_addresses_dom in Ha. rewrite <- Hd in Ha.
  apply elem_of_dom in Ha as [w Hw]. unfold word. rewrite Hw. reflexivity.
Qed.

Lemma item0_getValues_hr (s : sim) (a w : Z) :
  hr (context s) !! a = Some w ->
  item0 (getValues 3 a 1) s = (Return w, s).
Proof.
  intros H. unfold item0, getValues. change (decode 3) with (Some HoldingRegisters).
  unfold mbind, M_bind, gets. cbn [block_of].
  rewrite (block_getValues_1 _ _ _ H). reflexivity.
Qed.

Lemma setValues_ir (s : sim) (a : Z) (words : list Z) :
  validate (ir (context s)) a (Z.of_nat (length words)) = true ->
  setValues 4 a words s =
  (Return tt, set_ir (store_words (ir (context s)) a words) s).
Proof.
  intros H. unfold setValues. change (decode 4) with (Some InputRegisters).
  unfold mbind, M_bind, gets. cbn [block_of].
  rewrite (block_setValues_valid _ _ _ H). reflexivity.
Qed.

Lemma dom_store_table (blk : gmap Z Z) (a : Z) (words : list Z) :
  dom blk = dom BessDataBlock ->
  validate BessDataBlock a (Z.of_nat (length words)) = true ->
  dom (store_words blk a words) = dom BessDataBlock.
Proof.
  intros Hd Hv. rewrite dom_store_words; [exact Hd |].
  rewrite (validate_same_dom _ _ _ _ Hd). exact Hv.
Qed.

Ltac in_table := vm_compute; repeat (first [left; reflexivity | right]).

Ltac reduce_state :=
  cbn [context soc_value watchdog_timeout output set_ir with_block hr ir co di].

Ltac table_dom :=
  unfold mirror;
  repeat first [ assumption | apply dom_store_table; [| reflexivity] ].

Ltac read_hr :=
  etransitivity;
  [ eapply bind_Return; apply item0_getValues_hr; reduce_state;
    apply declared_word; [assumption | in_table]
  | cbv beta ].

Ltac write_ir :=
  etransitivity;
  [ eapply bind_Return; apply setValues_ir; reduce_state;
    rewrite (validate_same_dom _ BessDataBlock); [reflexivity |];
    table_dom
  | cbv beta ].

Lemma watchdog_check (watchdog_32 : Z) (s : sim) :
  (if bool_decide (watchdog_32 <> 0) then
     set_watchdog_timeout 0;;
     log DEBUG (WatchdogReceived watchdog_32)
   else
     wt ← gets watchdog_timeout;
     set_watchdog_timeout (wt + 1);;
     wt ← gets watchdog_timeout;
     if bool_decide (wt > 10) then log WARNING WatchdogTimeout
     else mret tt) s =
  (Return tt,
   {| context := context s; soc_value := soc_value s;
      watchdog_timeout :=
        if bool_decide (watchdog_32 <> 0) then 0 else watchdog_timeout s + 1;
      output :=
        output s ++
        (if bool_decide (watchdog_32 <> 0)
         then [Log DEBUG (WatchdogReceived watchdog_32)]
         else if bool_decide (watchdog_timeout s + 1 > 10)
              then [Log WARNING WatchdogTimeout] else []) |}).
Proof.
  destruct s as [c sv wt out].
  destruct (bool_decide (watchdog_32 <> 0)); [reflexivity |].
  unfold mbind, M_bind, gets, set_watchdog_timeout. reduce_state.
  destruct (bool_decide (wt + 1 > 10)); [reflexivity |].
  unfold mret, M_ret. rewrite app_nil_r. reflexivity.
Qed.

Lemma soc_update (now : Q) (s : sim) :
  (sv ← gets soc_value;
   set_soc_value (sv + soc_direction now);;
   sv ← gets soc_value;
   set_soc_value (Z.max 1000 (Z.min 9500 sv));;
   sv ← gets soc_value;
   setValues 4 0x2504 (split_int32_be sv)) s =
  setValues 4 0x2504
    (split_int32_be (Z.max 1000 (Z.min 9500 (soc_value s + soc_direction now))))
    {| context := context s;
       soc_value := Z.max 1000 (Z.min 9500 (soc_value s + soc_direction now));
       watchdog_timeout := watchdog_timeout s; output := output s |}.
Proof. reflexivity. Qed.

Lemma updater_body_well_formed (now : Q) (s : sim) :
  well_formed (context s) ->
  updater_body now s = (Return tt, tick_effect now s).
Proof.
  intros (Hhr & Hir & _ & _ & _). unfold updater_body.
  read_hr. read_hr. cbv zeta. write_ir.
  read_hr. read_hr. cbv zeta. write_ir.
  read_hr. read_hr. cbv zeta. write_ir.
  read_hr. read_hr. cbv zeta.
  etransitivity; [eapply bind_Return; apply watchdog_check | cbv beta].
  etransitivity; [apply soc_update |].
  etransitivity;
    [ apply setValues_ir; reduce_state;
      rewrite (validate_same_dom _ BessDataBlock); [reflexivity |];
      table_dom |].
  reflexivity.
Qed.

Lemma updater_iteration_body (now : Q) (s s' : sim) :
  updater_body now s = (Return tt, s') ->
  updater_iteration now s =
  (Return tt,
   {| context := context s'; soc_value := soc_value s';
      watchdog_timeout := watchdog_timeout s';
      output := output s' ++ [Sleep 1] |}).
Proof.
  intros H. unfold updater_iteration, try_except, mbind, M_bind.
  rewrite H. reflexivity.
Qed.

Lemma updater_iteration_well_formed (now : Q) (s : sim) :
  well_formed (context s) ->
  updater_iteration now s =
  (Return tt,
   {| context := context (tick_effect now s);
      soc_value := soc_value (tick_effect now s);
      watchdog_timeout := watchdog_timeout (tick_effect now s);
      output := output (tick_effect now s) ++ [Sleep 1] |}).
Proof.
  intros H. apply updater_iteration_body, updater_body_well_formed, H.
Qed.

Lemma well_formed_store : well_formed store.
Proof.
  unfold well_formed. split_and!; try reflexivity.
  intros a w H. apply elem_of_list_to_map_2 in H.
  assert (F : Forall (fun p => word16 p.2) values)
    by (unfold values, word16; repeat constructor; cbn; lia).
  rewrite Forall_forall in F. apply (F (a, w)), H.
Qed.

Lemma well_formed_tick_effect (now : Q) (s : sim) :
  well_formed (context s) -> well_formed (context (tick_effect now s)).
Proof.
  intros (Hhr & Hir & Hco & Hdi & Hw). unfold tick_effect; cbv zeta.
  reduce_state. unfold well_formed. reduce_state. split_and!; try assumption.
  table_dom.
Qed.

Lemma well_formed_execute (r : request) (c : slave_context) :
  wire_request r -> well_formed c -> well_formed (execute r c).2.
Proof.
  intros Hr Hc. destruct r as [fx a n | fx a ws]; cbn [execute].
  - destruct (decode fx) as [b |]; [| exact Hc].
    destruct (reads fx); [| exact Hc].
    destruct (block_getValues _ _ _); exact Hc.
  - destruct (decode fx) as [b |]; [| exact Hc].
    destruct (writes fx); [| exact Hc].
    unfold block_setValues.
    destruct (validate _ _ _) eqn:Hv; [| exact Hc].
    pose proof (dom_store_words _ _ _ Hv) as Hd.
    destruct Hc as (Hhr & Hir & Hco & Hdi & Hw). cbn [wire_request] in Hr.
    destruct b; cbn [block_of] in Hd; cbn [snd with_block block_of];
      unfold well_formed; reduce_state; split_and!;
      try assumption; try congruence.
    apply store_words_Forall; assumption.
Qed.

Lemma well_formed_step (s : sim) (e : event) :
  wire_event e -> well_formed (context s) -> well_formed (context (step s e)).
Proof.
  intros He Hs. destruct e as [now | r]; cbn [step].
  - rewrite (updater_iteration_well_formed _ _ Hs). cbn [snd context].
    apply well_formed_tick_effect, Hs.
  - cbn [context]. apply well_formed_execute; assumption.
Qed.

Lemma run_cons (s : sim) (e : event) (later : list event) :
  run s (e :: later) = run (step s e) later.
Proof. reflexivity. Qed.

Lemma well_formed_run (history : list event) (s : sim) :
  Forall wire_event history -> well_formed (context s) ->
  well_formed (context (run s history)).
Proof.
  intros Hh. revert s. induction Hh as [| e later He _ IH]; intros s Hs.
  - exact Hs.
  - rewrite run_cons. apply IH, well_formed_step; assumption.
Qed.

Lemma reachable_well_formed (s : sim) :
  reachable s -> well_formed (context s).
Proof.
  intros (history & Hh & ->). apply well_formed_run; [exact Hh |].
  apply well_formed_store.
Qed.


(** Whatever holds across every primitive of the tick body holds across the
    body, also when it raises part of the way. *)
Section Preservation.
Variable R : sim -> sim -> Prop.
Hypothesis R_refl : forall s, R s s.
Hypothesis R_trans : forall s1 s2 s3, R s1 s2 -> R s2 s3 -> R s1 s3.
Hypothesis R_set_soc_value : forall v, keeps R (set_soc_value v).
Hypothesis R_set_watchdog_timeout :
  forall v, keeps R (set_watchdog_timeout v).
Hypothesis R_log : forall l m, keeps R (log l m).
Hypothesis R_write_ir :
  forall blk s, R s (set_ir blk s).

Lemma keeps_ret {A} (a : A) : keeps R (mret a).
Proof. intros s. apply R_refl. Qed.

Lemma keeps_raise {A} (e : exn) : keeps R (raise (A := A) e).
Proof. intros s. apply R_refl. Qed.

Lemma keeps_gets {A} (f : sim -> A) : keeps R (gets f).
Proof. intros s. apply R_refl. Qed.

Lemma keeps_bind {A B} (m : M A) (f : A -> M B) :
  keeps R m -> (forall a, keeps R (f a)) -> keeps R (m ≫= f).
Proof.
  intros Hm Hf s. specialize (Hm s). unfold mbind, M_bind.
  destruct (m s) as [[a | e] s1]; cbn [snd] in *; [| exact Hm].
  eapply R_trans; [exact Hm | apply Hf].
Qed.

Lemma keeps_getValues (fx address count : Z) :
  keeps R (getValues fx address count).
Proof.
  unfold getValues. destruct (decode fx) as [b |]; [| apply keeps_raise].
  apply keeps_bind; [apply keeps_gets |]. intros c.
  destruct (block_getValues _ _ _); [apply keeps_ret | apply keeps_raise].
Qed.

Lemma keeps_item0 (m : M (list Z)) : keeps R m -> keeps R (item0 m).
Proof.
  intros Hm. apply keeps_bind; [exact Hm |].
  intros [| w ws]; [apply keeps_raise | apply keeps_ret].
Qed.

Lemma keeps_setValues_ir (address : Z) (words : list Z) :
  keeps R (setValues 4 address words).
Proof.
  unfold setValues. change (decode 4) with (Some InputRegisters).
  intros s. unfold mbind, M_bind, gets.
  destruct (block_setValues _ _ _) as [blk |]; [| apply R_refl].
  apply R_write_ir.
Qed.

Lemma keeps_updater_body (now : Q) : keeps R (updater_body now).
Proof.
  unfold updater_body.
  repeat lazymatch goal with
    | |- keeps _ (item0 _) => apply keeps_item0
    | |- keeps _ (getValues _ _ _) => apply keeps_getValues
    | |- keeps _ (setValues 4 _ _) => apply keeps_setValues_ir
    | |- keeps _ (gets _) => apply keeps_gets
    | |- keeps _ (mret _) => apply keeps_ret
    | |- keeps _ (set_soc_value _) => apply R_set_soc_value
    | |- keeps _ (set_watchdog_timeout _) => apply R_set_watchdog_timeout
    | |- keeps _ (log _ _) => apply R_log
    | |- keeps _ (if ?b then _ else _) => destruct b
    | |- keeps _ (_ ≫= _) => apply keeps_bind; [| intros ?]
    | |- keeps _ (let _ := _ in _) => cbv zeta
    end.
Qed.
End Preservation.

Lemma updater_body_same_other_banks (now : Q) :
  keeps same_other_banks (updater_body now).
Proof.
  apply keeps_updater_body; unfold keeps, same_other_banks; try done.
  intros s1 s2 s3 (-> & -> & ->) (-> & -> & ->). done.
Qed.

Lemma updater_body_only_logged (now : Q) :
  keeps only_logged (updater_body now).
Proof.
  apply keeps_updater_body; unfold keeps, only_logged.
  - intros s. exists []. rewrite app_nil_r. done.
  - intros s1 s2 s3 (l1 & -> & H1) (l2 & -> & H2). exists (l1 ++ l2).
    rewrite app_assoc. split; [done |].
    clear - H1 H2. induction l1 as [| [? ? | d] l1 IH]; cbn in *; try done.
    + apply IH, H1.
    + case_bool_decide; [done | apply IH, H1].
  - intros v s. exists []. cbn. rewrite app_nil_r. done.
  - intros v s. exists []. cbn. rewrite app_nil_r. done.
  - intros l m s. exists [Log l m]. done.
  - intros blk s. exists []. cbn. rewrite app_nil_r. done.
Qed.


Lemma well_formed_word16 (c : slave_context) (a : Z) :
  well_formed c -> In a table_addresses -> word16 (word (hr c) a).
Proof.
  intros (Hhr & _ & _ & _ & Hw) Ha.
  apply (Hw a), declared_word; assumption.
Qed.

Lemma soc_clamped (now : Q) (v : Z) :
  1000 <= Z.max 1000 (Z.min 9500 (v + soc_direction now)) <= 9500.
Proof. lia. Qed.

(** The input bank after a tick, register by register. *)
Lemma tick_effect_ir (now : Q) (s : sim) :
  well_formed (context s) ->
  ir (context (tick_effect now s)) =
  <[0x2505 := soc_value (tick_effect now s)]>
    (<[0x2504 := 0]>
       (<[0x251b := word (hr (context s)) 0xd007]>
          (<[0x251a := word (hr (context s)) 0xd006]>
             (<[0x2519 := word (hr (context s)) 0xd005]>
                (<[0x2518 := word (hr (context s)) 0xd004]>
                   (<[0x2503 := word (hr (context s)) 0xd003]>
                      (<[0x2502 := word (hr (context s)) 0xd002]>
                         (ir (context s))))))))).
Proof.
  intros Hs. unfold tick_effect, mirror; cbv zeta. reduce_state.
  rewrite !split_merge by (apply well_formed_word16; [exact Hs | in_table]).
  rewrite split_int32_be_small
    by (pose proof (soc_clamped now (soc_value s)); unfold word16; lia).
  reflexivity.
Qed.


Lemma step_tick (now : Q) (s : sim) :
  well_formed (context s) ->
  step s (Tick now) =
  {| context := context (tick_effect now s);
     soc_value := soc_value (tick_effect now s);
     watchdog_timeout := watchdog_timeout (tick_effect now s);
     output := output (tick_effect now s) ++ [Sleep 1] |}.
Proof.
  intros Hs. cbn [step]. rewrite (updater_iteration_well_formed _ _ Hs).
  reflexivity.
Qed.

Lemma logical_word (blk : gmap Z Z) (a : Z) :
  dom blk = dom BessDataBlock ->
  In a table_addresses -> In (a + 1) table_addresses ->
  logical blk a = Some (merge_int32_be (word blk a) (word blk (a + 1))).
Proof.
  intros Hd Ha Ha'. unfold logical.
  rewrite (declared_word _ _ Hd Ha), (declared_word _ _ Hd Ha').
  reflexivity.
Qed.

Lemma watchdog_nonneg_run (history : list event) (s : sim) :
  Forall wire_event history -> well_formed (context s) ->
  0 <= watchdog_timeout s -> 0 <= watchdog_timeout (run s history).
Proof.
  intros Hh. revert s.
  induction Hh as [| e later He _ IH]; intros s Hs Hwt; [exact Hwt |].
  rewrite run_cons. apply IH; [apply well_formed_step; assumption |].
  destruct e as [now | r]; [| exact Hwt].
  rewrite (step_tick _ _ Hs). cbn [watchdog_timeout tick_effect].
  case_bool_decide; lia.
Qed.

Lemma reachable_watchdog_nonneg (s : sim) :
  reachable s -> 0 <= watchdog_timeout s.
Proof.
  intros (history & Hh & ->).
  apply watchdog_nonneg_run; [exact Hh | apply well_formed_store | done].
Qed.

Lemma output_run (history : list event) (s : sim) :
  Forall wire_event history -> well_formed (context s) ->
  exists more, output (run s history) = output s ++ more.
Proof.
  intros Hh. revert s.
  induction Hh as [| e later He _ IH]; intros s Hs.
  - exists []. rewrite app_nil_r. reflexivity.
  - rewrite run_cons.
    destruct (IH (step s e) (well_formed_step _ _ He Hs)) as [more ->].
    destruct e as [now | r].
    + rewrite (step_tick _ _ Hs). cbn [output tick_effect].
      rewrite <- !app_assoc. eexists. reflexivity.
    + cbn [step output]. eexists. reflexivity.
Qed.

(** Silent turns count up to the warning. *)
Lemma silent_run_warns (history : list event) (s : sim) :
  Forall wire_event history -> well_formed (context s) ->
  watchdog_silent s history ->
  (1 <= ticks history)%nat ->
  11 <= watchdog_timeout s + Z.of_nat (ticks history) ->
  exists before after,
    output (run s history) =
    output s ++ before ++ Log WARNING WatchdogTimeout :: after.
Proof.
  intros Hh. revert s.
  induction Hh as [| e later He Hlater IH]; intros s Hs Hsil Hn Hwt;
    [cbn in Hn; lia |].
  rewrite run_cons. destruct Hsil as [Hzero Hsil].
  pose proof (well_formed_step _ _ He Hs) as Hs'.
  destruct e as [now | r].
  - destruct Hs as (Hhr & Hrest).
    rewrite (logical_word _ _ Hhr) in Hzero by in_table.
    injection Hzero as Hzero.
    assert (Hs : well_formed (context s)) by (split; assumption).
    rewrite (step_tick _ _ Hs) in *.
    cbn [ticks] in Hn, Hwt.
    destruct (decide (watchdog_timeout s + 1 > 10)) as [Hgt | Hle].
    + destruct (output_run later _ Hlater Hs') as [more ->].
      cbn [output tick_effect]. change (53248 + 1) with 53249 in Hzero.
      rewrite Hzero, bool_decide_eq_false_2 by lia.
      rewrite bool_decide_eq_true_2 by exact Hgt.
      exists [], ([Sleep 1] ++ more). rewrite <- !app_assoc. reflexivity.
    + destruct (IH _ Hs' Hsil) as (before & after & ->).
      * destruct (ticks later); [| lia].
        cbn [watchdog_timeout tick_effect] in Hle. lia.
      * cbn [watchdog_timeout tick_effect].
        change (53248 + 1) with 53249 in Hzero.
        rewrite Hzero, bool_decide_eq_false_2 by lia. lia.
      * cbn [output tick_effect]. change (53248 + 1) with 53249 in Hzero.
        rewrite Hzero, bool_decide_eq_false_2 by lia.
        rewrite bool_decide_eq_false_2 by exact Hle.
        exists ([Sleep 1] ++ before), after.
        rewrite <- !app_assoc. reflexivity.
  - cbn [ticks] in Hn, Hwt.
    destruct (IH _ Hs' Hsil Hn Hwt) as (before & after & ->).
    exists before, after. reflexivity.
Qed.


Lemma tick_soc_pair (now : Q) (s : sim) :
  well_formed (context s) ->
  logical (ir (context (step s (Tick now)))) 0x2504 =
  Some (soc_value (step s (Tick now))).
Proof.
  intros Hs. rewrite (step_tick _ _ Hs). cbn [context soc_value].
  rewrite (tick_effect_ir _ _ Hs). unfold logical. simplify_map_eq.
  rewrite merge_int32_be_small; [reflexivity |].
  pose proof (soc_clamped now (soc_value s)).
  cbn [soc_value tick_effect]. unfold word16. lia.
Qed.

Lemma sleeps_app (d : Z) (l1 l2 : list action) :
  sleeps d (l1 ++ l2) = (sleeps d l1 + sleeps d l2)%nat.
Proof.
  induction l1 as [| [l m | d'] l1 IH]; cbn [sleeps app]; [done | done |].
  case_bool_decide; rewrite IH; reflexivity.
Qed.

(** A turn of the loop never raises: it ends in the sleep, after the
    body's logs and, when the body raised, the error's log. *)
Lemma updater_iteration_returns (now : Q) (s : sim) :
  exists s',
    updater_iteration now s = (Return tt, s') /\
    context s' = context (updater_body now s).2 /\
    sleeps 1 (output s') = S (sleeps 1 (output s)).
Proof.
  pose proof (updater_body_only_logged now s) as (logs & Hout & Hlogs).
  unfold updater_iteration, try_except, mbind, M_bind.
  destruct (updater_body now s) as [[[] | e] s1]; cbn [snd] in *;
    eexists; (split; [reflexivity |]); cbn [context output];
    rewrite Hout, !sleeps_app, Hlogs; change (sleeps 1 [Sleep 1]) with 1%nat;
    (split; [reflexivity |]); cbn [sleeps]; lia.
Qed.

Lemma updater_returns (clock : list Q) (s : sim) :
  exists s',
    updater clock s = (Return tt, s') /\
    sleeps 1 (output s') = (sleeps 1 (output s) + length clock)%nat.
Proof.
  revert s. induction clock as [| now later IH]; intros s.
  - exists s. split; [reflexivity | cbn; lia].
  - destruct (updater_iteration_returns now s) as (s1 & H1 & _ & Hn1).
    destruct (IH s1) as (s2 & H2 & Hn2).
    exists s2. split.
    + cbn [updater]. rewrite (bind_Return _ _ _ _ _ H1). exact H2.
    + rewrite Hn2, Hn1. cbn [length]. lia.
Qed.

Lemma step_tick_same_other_banks (now : Q) (s : sim) :
  same_other_banks s (step s (Tick now)).
Proof.
  cbn [step].
  destruct (updater_iteration_returns now s) as (s' & -> & Hc & _).
  cbn [snd]. unfold same_other_banks. rewrite Hc.
  apply updater_body_same_other_banks.
Qed.

Lemma reads_decode (fx : Z) :
  reads fx = true -> exists b, decode fx = Some b.
Proof.
  unfold reads. rewrite bool_decide_eq_true.
  intros [-> | [-> | [-> | ->]]]; eexists; reflexivity.
Qed.

Lemma writes_decode (fx : Z) :
  writes fx = true -> exists b, decode fx = Some b.
Proof.
  unfold writes. rewrite bool_decide_eq_true.
  intros [-> | [-> | [-> | ->]]]; eexists; reflexivity.
Qed.

Lemma well_formed_dom (b : bank) (c : slave_context) :
  well_formed c -> dom (block_of b c) = dom BessDataBlock.
Proof. intros (? & ? & ? & ? & _). destruct b; assumption. Qed.

End ServerFacts.

(** ** Main theorems *)

Import Codec Datastore Server Properties.
Import CodecFacts DatastoreFacts ServerFacts.

(** C2: for every signed 32-bit [v], [split_int32_be v] is a pair [hi], [lo]
    and [merge_int32_be hi lo] is [v] again. *)
Theorem merge_split_roundtrip (v : Z) : int32 v -> roundtrips v.
Proof.
  intros Hv. pose proof (merge_split v Hv) as H. unfold roundtrips.
  destruct (split_int32_be v) as [| hi [| lo [| ? ?]]]; try contradiction.
  exists hi, lo. split; [reflexivity | exact H].
Qed.

(** The round trip at -1, INT32_MIN, INT32_MAX and 0. *)
Lemma merge_split_roundtrip_witness :
  (int32 (-1) /\ roundtrips (-1)) /\
  (int32 (- 2 ^ 31) /\ roundtrips (- 2 ^ 31)) /\
  (int32 (2 ^ 31 - 1) /\ roundtrips (2 ^ 31 - 1)) /\
  (int32 0 /\ roundtrips 0).
Proof.
  assert (H : forall v, - 2 ^ 31 <= v <= 2 ^ 31 - 1 -> int32 v /\ roundtrips v)
    by (intros v Hv; split; [exact Hv | apply merge_split_roundtrip, Hv]).
  repeat split; apply H; lia.
Defined.

(** C9: for 16-bit words [hi] and [lo], encoding the decoded value gives
    the two words back. *)
Theorem split_merge_words (hi lo : Z) :
  0 <= hi <= 0xFFFF -> 0 <= lo <= 0xFFFF ->
  split_int32_be (merge_int32_be hi lo) = [hi; lo].
Proof. intros Hhi Hlo. apply split_merge; assumption. Qed.

Lemma split_merge_words_witness :
  (0 <= 0xFFFF <= 0xFFFF) /\ (0 <= 0x8000 <= 0xFFFF) /\
  split_int32_be (merge_int32_be 0xFFFF 0x8000) = [0xFFFF; 0x8000].
Proof.
  split; [lia |]. split; [lia |]. apply split_merge_words; lia.
Defined.

(** C1: in every state the server reaches, right after a turn of the loop
    the input pairs 0x2502, 0x2518 and 0x251a hold the very words of the
    holding pairs 0xd002, 0xd004 and 0xd006. *)
Theorem tick_mirrors_commands (now : Q) (s : sim) :
  reachable s ->
  mirrors (context (step s (Tick now))) 0xd002 0x2502 /\
  mirrors (context (step s (Tick now))) 0xd004 0x2518 /\
  mirrors (context (step s (Tick now))) 0xd006 0x251a.
Proof.
  intros Hs. apply reachable_well_formed in Hs.
  pose proof (step_tick_same_other_banks now s) as (Hhr & _ & _).
  pose proof Hs as (Hd & _).
  unfold mirrors. rewrite Hhr, (step_tick _ _ Hs). cbn [context].
  rewrite (tick_effect_ir _ _ Hs).
  split_and!.
  - exists (word (hr (context s)) 0xd002), (word (hr (context s)) 0xd003).
    split_and!; try (apply declared_word; [exact Hd | in_table]);
      repeat (rewrite lookup_insert_ne by discriminate);
      apply lookup_insert_eq.
  - exists (word (hr (context s)) 0xd004), (word (hr (context s)) 0xd005).
    split_and!; try (apply declared_word; [exact Hd | in_table]);
      repeat (rewrite lookup_insert_ne by discriminate);
      apply lookup_insert_eq.
  - exists (word (hr (context s)) 0xd006), (word (hr (context s)) 0xd007).
    split_and!; try (apply declared_word; [exact Hd | in_table]);
      repeat (rewrite lookup_insert_ne by discriminate);
      apply lookup_insert_eq.
Qed.

Lemma tick_mirrors_commands_witness :
  reachable (run startup [Client (Write 16 0xd004 [0xFFFF; 0xFFFF])]) /\
  mirrors
    (context
       (step (run startup [Client (Write 16 0xd004 [0xFFFF; 0xFFFF])])
          (Tick 0))) 0xd004 0x2518.
Proof.
  assert (H : reachable (run startup [Client (Write 16 0xd004 [0xFFFF; 0xFFFF])])).
  { eexists. split; [| reflexivity].
    repeat constructor; unfold word16; lia. }
  split; [exact H |]. apply (tick_mirrors_commands 0 _ H).
Defined.

(** The end-to-end scenario: 0xFFFF, 0xFFFF written to the pair at 0xd004
    is read back from the input pair at 0x2518 after the next tick. *)
Example p_command_minus_one :
  (execute (Read 4 0x2518 2)
     (context
        (run startup
           [Client (Write 16 0xd004 [0xFFFF; 0xFFFF]); Tick 0]))).1 =
  Registers [0xFFFF; 0xFFFF].
Proof. vm_compute. reflexivity. Qed.

(** C3: in every state the server reaches and for every clock reading, the
    value a turn of the loop stores in the pair at 0x2504 is the new
    [soc_value], and it lies between 1000 and 9500. *)
Theorem soc_register_in_range (now : Q) (s : sim) :
  reachable s ->
  exists soc,
    logical (ir (context (step s (Tick now)))) 0x2504 = Some soc /\
    soc = soc_value (step s (Tick now)) /\ 1000 <= soc <= 9500.
Proof.
  intros Hs. apply reachable_well_formed in Hs.
  rewrite (step_tick _ _ Hs). cbn [context soc_value].
  pose proof (soc_clamped now (soc_value s)) as Hsoc.
  exists (soc_value (tick_effect now s)).
  split; [| split; [reflexivity | exact Hsoc]].
  rewrite (tick_effect_ir _ _ Hs). unfold logical. simplify_map_eq.
  rewrite merge_int32_be_small; [reflexivity |].
  cbn [soc_value tick_effect]. unfold word16. lia.
Qed.

Lemma soc_register_in_range_witness :
  reachable (run startup [Tick 0; Tick 31]) /\
  exists soc,
    logical (ir (context (step (run startup [Tick 0; Tick 31]) (Tick 62))))
      0x2504 = Some soc /\
    soc = soc_value (step (run startup [Tick 0; Tick 31]) (Tick 62)) /\
    1000 <= soc <= 9500.
Proof.
  assert (H : reachable (run startup [Tick 0; Tick 31])).
  { eexists. split; [| reflexivity]. repeat constructor. }
  split; [exact H |]. apply (soc_register_in_range 62 _ H).
Defined.

(** C4: in every state the server reaches, a turn that decodes a nonzero
    watchdog pair sets the counter to 0 and one that decodes zero adds 1;
    the warning is logged exactly when the counter then exceeds 10; a
    history with 11 or more turns, all decoding zero, logs the warning;
    and the registers after a turn do not depend on the counter. *)
Theorem watchdog_accounting (s : sim) :
  reachable s ->
  (forall now, exists watchdog_32,
      logical (hr (context s)) 0xd000 = Some watchdog_32 /\
      watchdog_timeout (step s (Tick now)) =
        (if bool_decide (watchdog_32 <> 0) then 0
         else watchdog_timeout s + 1) /\
      output (step s (Tick now)) =
        output s ++ watchdog_logs watchdog_32 (watchdog_timeout s) ++
        [Sleep 1]) /\
  (forall history,
      Forall wire_event history -> watchdog_silent s history ->
      (11 <= ticks history)%nat ->
      exists before after,
        output (run s history) =
        output s ++ before ++ Log WARNING WatchdogTimeout :: after) /\
  (forall now wt,
      context (step (with_watchdog_timeout wt s) (Tick now)) =
      context (step s (Tick now))).
Proof.
  intros Hr. pose proof (reachable_well_formed _ Hr) as Hs.
  pose proof (reachable_watchdog_nonneg _ Hr) as Hwt.
  split_and!.
  - intros now. eexists. split.
    + destruct Hs as (Hhr & _). apply (logical_word _ _ Hhr); in_table.
    + rewrite (step_tick _ _ Hs). cbn [watchdog_timeout output tick_effect].
      rewrite <- app_assoc. split; reflexivity.
  - intros history Hh Hsil Hn.
    apply silent_run_warns; try assumption; lia.
  - intros now wt.
    assert (Hs' : well_formed (context (with_watchdog_timeout wt s))) by exact Hs.
    rewrite (step_tick _ _ Hs), (step_tick _ _ Hs'). reflexivity.
Qed.

Lemma watchdog_accounting_witness :
  reachable startup /\
  exists before after,
    output (run startup (repeat (Tick 0) 11)) =
    before ++ Log WARNING WatchdogTimeout :: after.
Proof.
  assert (H : reachable startup).
  { exists []. split; [constructor | reflexivity]. }
  split; [exact H |].
  destruct (watchdog_accounting startup H) as (_ & Hrun & _).
  apply (Hrun (repeat (Tick 0) 11)).
  - repeat constructor.
  - vm_compute. repeat split.
  - cbn. lia.
Defined.

(** Eleven silent turns from startup log the warning once, in the
    eleventh. *)
Example eleven_silent_ticks :
  output (run startup (repeat (Tick 0) 11)) =
  repeat (Sleep 1) 10 ++ [Log WARNING WatchdogTimeout; Sleep 1].
Proof. vm_compute. reflexivity. Qed.

(** C5: at startup the input bank holds 5000 at 0x2504 and 0 at 0x2505, so
    the pair, high word at the lower address, decodes to 5000 * 65536 and
    not to the 5000 of [soc_value]; the first tick stores [soc_value] in
    the low word at 0x2505.  The command and state pairs decode to 0. *)
Theorem startup_soc_pair :
  ir (context startup) !! 0x2504 = Some 5000 /\
  ir (context startup) !! 0x2505 = Some 0 /\
  logical (ir (context startup)) 0x2504 = Some 327680000 /\
  soc_value startup = 5000 /\
  (forall now,
      logical (ir (context (step startup (Tick now)))) 0x2504 =
      Some (soc_value (step startup (Tick now)))) /\
  Forall (fun a => logical (ir (context startup)) a = Some 0)
    [0x2502; 0x2518; 0x251a] /\
  Forall (fun a => logical (hr (context startup)) a = Some 0)
    [0xd000; 0xd002; 0xd004; 0xd006; 0xd00a].
Proof.
  split_and!.
  - reflexivity.
  - reflexivity.
  - reflexivity.
  - reflexivity.
  - intros now. apply tick_soc_pair, well_formed_store.
  - repeat constructor.
  - repeat constructor.
Qed.

(** C6, as amended: every bank is created from the same [BessDataBlock], so
    what a bank rejects is decided by the address alone.  In every state the
    server reaches, a request through any read or write function code whose
    range covers an address that is none of the 18 addresses of
    [BessDataBlock] is answered with the illegal-data-address exception and
    changes nothing. *)
Theorem undeclared_address_is_illegal (s : sim) (a : Z) :
  reachable s -> ~ In a table_addresses ->
  (forall fx address count,
      reads fx = true -> address <= a < address + count ->
      execute (Read fx address count) (context s) =
      (ExceptionResponse IllegalAddress, context s)) /\
  (forall fx address words,
      writes fx = true ->
      address <= a < address + Z.of_nat (length words) ->
      execute (Write fx address words) (context s) =
      (ExceptionResponse IllegalAddress, context s)).
Proof.
  intros Hr Ha. apply reachable_well_formed in Hr.
  assert (Hn : forall b, a ∉ dom (block_of b (context s))).
  { intros b. rewrite (well_formed_dom _ _ Hr), table_addresses_dom.
    exact Ha. }
  split.
  - intros fx address count Hfx Hin. cbn [execute].
    destruct (reads_decode _ Hfx) as [b ->]. rewrite Hfx.
    rewrite (block_getValues_undeclared _ _ _ _ Hin (Hn b)). reflexivity.
  - intros fx address words Hfx Hin. cbn [execute].
    destruct (writes_decode _ Hfx) as [b ->]. rewrite Hfx.
    rewrite (block_setValues_undeclared _ _ _ _ Hin (Hn b)). reflexivity.
Qed.

Lemma undeclared_address_is_illegal_witness :
  reachable startup /\ ~ In 0 table_addresses /\
  execute (Read 3 0 1) (context startup) =
  (ExceptionResponse IllegalAddress, context startup) /\
  execute (Write 6 0 [7]) (context startup) =
  (ExceptionResponse IllegalAddress, context startup).
Proof.
  assert (H : reachable startup).
  { exists []. split; [constructor | reflexivity]. }
  assert (H0 : ~ In 0 table_addresses).
  { vm_compute. intros C. repeat (destruct C as [C | C]; [discriminate C |]).
    exact C. }
  split; [exact H |]. split; [exact H0 |].
  destruct (undeclared_address_is_illegal startup 0 H H0) as [Hread Hwrite].
  split; [apply Hread | apply Hwrite]; try reflexivity; cbn; lia.
Defined.

(** C6, as the specification words it, fails: section 4.2 declares 0x2504
    for the input bank only and nothing for the coil bank, yet a read of
    holding register 0x2504 is answered with the stored 5000, a write to it
    is accepted, and so are a read of input register 0xd000 and a write to
    coil 0xd000. *)
Lemma banks_answer_outside_spec_table :
  (~ In (HoldingRegisters, 0x2504) spec_register_table /\
   decode 3 = Some HoldingRegisters /\ reads 3 = true /\
   execute (Read 3 0x2504 1) (context startup) =
     (Registers [5000], context startup)) /\
  (decode 6 = Some HoldingRegisters /\ writes 6 = true /\
   (execute (Write 6 0x2504 [7]) (context startup)).1 = Written) /\
  (~ In (InputRegisters, 0xd000) spec_register_table /\
   decode 4 = Some InputRegisters /\ reads 4 = true /\
   execute (Read 4 0xd000 1) (context startup) =
     (Registers [0], context startup)) /\
  (~ In (Coils, 0xd000) spec_register_table /\
   decode 5 = Some Coils /\ writes 5 = true /\
   (execute (Write 5 0xd000 [1]) (context startup)).1 = Written).
Proof.
  assert (Hn : forall b a,
             (b, a) = (HoldingRegisters, 0x2504) \/
             (b, a) = (InputRegisters, 0xd000) \/ (b, a) = (Coils, 0xd000) ->
             ~ In (b, a) spec_register_table).
  { intros b a Hba C. unfold spec_register_table in C. cbn [In] in C.
    destruct Hba as [E | [E | E]]; injection E as -> ->;
      repeat (destruct C as [C | C]; [discriminate C |]); exact C. }
  split_and!; try reflexivity; apply Hn; auto.
Qed.

(** C7: when the body of a turn raises, the turn logs the error, sleeps its
    second and returns, keeping the writes made before the raise; the loop
    then runs every later turn, one sleep each, and never raises. *)
Theorem failed_tick_is_survived (now : Q) (s s1 : sim) (e : exn) :
  updater_body now s = (Raise e, s1) ->
  updater_iteration now s =
    (Return tt,
     {| context := context s1; soc_value := soc_value s1;
        watchdog_timeout := watchdog_timeout s1;
        output := output s1 ++ [Log ERROR (UpdaterError e); Sleep 1] |}) /\
  forall later, exists s',
    updater (now :: later) s = (Return tt, s') /\
    sleeps 1 (output s') = (sleeps 1 (output s) + 1 + length later)%nat.
Proof.
  intros H. split.
  - unfold updater_iteration, try_except, mbind, M_bind. rewrite H.
    unfold log, sleep, perform. reduce_state.
    rewrite <- app_assoc. reflexivity.
  - intros later. destruct (updater_returns (now :: later) s) as (s' & Hs' & Hn).
    exists s'. split; [exact Hs' |]. rewrite Hn. cbn [length]. lia.
Qed.

Lemma failed_tick_is_survived_witness :
  updater_body 0 unplugged =
    (Raise (AddressingError HoldingRegisters 0xd002), unplugged) /\
  updater_iteration 0 unplugged =
    (Return tt,
     {| context := context unplugged; soc_value := 5000;
        watchdog_timeout := 0;
        output :=
          [Log ERROR (UpdaterError (AddressingError HoldingRegisters 0xd002));
           Sleep 1] |}).
Proof.
  assert (H : updater_body 0 unplugged =
              (Raise (AddressingError HoldingRegisters 0xd002), unplugged))
    by reflexivity.
  split; [exact H |].
  exact (proj1 (failed_tick_is_survived 0 unplugged unplugged _ H)).
Defined.

(** C10: the four banks are four blocks of their own, each created with
    the same 18 addresses and values; in every state the server reaches
    each bank declares exactly the table's addresses, so the input-register
    addresses can be written and read back through the holding-register
    function codes without touching the input bank, and read through the
    coil and discrete-input codes; a turn of the loop changes no bank but
    the input bank. *)
Theorem four_banks_same_table :
  (hr store = BessDataBlock /\ ir store = BessDataBlock /\
   co store = BessDataBlock /\ di store = BessDataBlock) /\
  (size BessDataBlock = 18%nat /\ length table_addresses = 18%nat /\
   NoDup table_addresses) /\
  (forall s b a,
      reachable s ->
      (declared (block_of b (context s)) a = true <-> In a table_addresses)) /\
  (forall s a w,
      reachable s -> In a input_addresses -> word16 w ->
      execute (Write 6 a [w]) (context s) =
        (Written,
         with_block HoldingRegisters (<[a := w]> (hr (context s))) (context s)) /\
      (execute (Read 3 a 1) (execute (Write 6 a [w]) (context s)).2).1 =
        Registers [w] /\
      (execute (Read 4 a 1) (execute (Write 6 a [w]) (context s)).2).1 =
        (execute (Read 4 a 1) (context s)).1) /\
  (forall s fx a,
      reachable s -> reads fx = true -> In a table_addresses ->
      exists w, (execute (Read fx a 1) (context s)).1 = Registers [w]) /\
  (forall s now, same_other_banks s (step s (Tick now))).
Proof.
  split_and!; try reflexivity.
  - apply NoDup_ListNoDup. vm_compute.
    repeat (constructor; [intros C; repeat (destruct C as [C | C]; [discriminate C |]); exact C |]).
    constructor.
  - intros s b a Hr. apply reachable_well_formed in Hr.
    rewrite declared_dom, (well_formed_dom _ _ Hr). apply table_addresses_dom.
  - intros s a w Hr Ha Hw. apply reachable_well_formed in Hr.
    assert (Hin : In a table_addresses).
    { revert Ha. unfold input_addresses. cbn [In].
      intros H; repeat (destruct H as [<- | H]; [in_table |]); contradiction. }
    pose proof Hr as (Hhr & _).
    pose proof (declared_word _ _ Hhr Hin) as Hlook.
    assert (Hv : validate (hr (context s)) a 1 = true).
    { apply validate_dom. intros k Hk. replace k with a by lia.
      rewrite Hhr. apply table_addresses_dom, Hin. }
    assert (Hw6 : execute (Write 6 a [w]) (context s) =
                  (Written,
                   with_block HoldingRegisters (<[a := w]> (hr (context s)))
                     (context s))).
    { cbn [execute]. change (decode 6) with (Some HoldingRegisters).
      change (writes 6) with true. cbn [block_of].
      rewrite block_setValues_valid by exact Hv. reflexivity. }
    rewrite Hw6. split_and!; [reflexivity | |].
    + cbn [execute snd]. change (decode 3) with (Some HoldingRegisters).
      change (reads 3) with true. cbn [block_of with_block hr].
      rewrite (block_getValues_1 _ a w) by apply lookup_insert_eq.
      reflexivity.
    + cbn [execute snd]. change (decode 4) with (Some InputRegisters).
      change (reads 4) with true. cbn [block_of with_block ir].
      destruct (block_getValues _ _ _); reflexivity.
  - intros s fx a Hr Hfx Ha. apply reachable_well_formed in Hr.
    destruct (reads_decode _ Hfx) as [b Hb]. cbn [execute]. rewrite Hb, Hfx.
    pose proof (declared_word _ _ (well_formed_dom b _ Hr) Ha) as Hlook.
    rewrite (block_getValues_1 _ _ _ Hlook). eexists. reflexivity.
  - intros s now. apply step_tick_same_other_banks.
Qed.

Lemma four_banks_same_table_witness :
  reachable startup /\
  (execute (Read 3 0x2504 1) (context startup)).1 = Registers [5000] /\
  (exists w, (execute (Read 1 0xd00b 1) (context startup)).1 = Registers [w]) /\
  (declared (block_of DiscreteInputs (context startup)) 0xd008 = true <->
   In 0xd008 table_addresses).
Proof.
  assert (H : reachable startup).
  { exists []. split; [constructor | reflexivity]. }
  destruct four_banks_same_table as (_ & _ & Hdecl & _ & Hread & _).
  split; [exact H |]. split; [reflexivity |]. split.
  - apply (Hread startup 1 0xd00b H); [reflexivity | in_table].
  - apply (Hdecl startup DiscreteInputs 0xd008 H).
Defined.

(** The table leaves gaps inside the spans it covers: 0xd008 and 0x2506
    are declared in no bank. *)
Example gaps_are_undeclared :
  Forall (fun b => declared (block_of b store) 0xd008 = false /\
                   declared (block_of b store) 0x2506 = false)
    [Coils; DiscreteInputs; InputRegisters; HoldingRegisters].
Proof. repeat constructor. Qed.

(** ** Further properties of the codec *)

(** X1: for every integer, also outside the signed 32-bit range,
    [split_int32_be] gives exactly two 16-bit words, and they are the low
    32 bits of the two's-complement pattern, high half first. *)
Theorem split_int32_be_words (v : Z) :
  exists hi lo,
    split_int32_be v = [hi; lo] /\ word16 hi /\ word16 lo /\
    hi * 65536 + lo = v mod 2 ^ 32.
Proof.
  exists ((v / 65536) mod 65536), (v mod 65536).
  split; [apply split_int32_be_arith |]. unfold word16.
  repeat split; Z.to_euclidean_division_equations; lia.
Qed.

(** X2: two 16-bit words decode to a signed 32-bit value, negative exactly
    when the high word has its top bit set, and congruent to the unsigned
    value of the pair. *)
Theorem merge_int32_be_range (hi lo : Z) :
  word16 hi -> word16 lo ->
  int32 (merge_int32_be hi lo) /\
  (merge_int32_be hi lo < 0 <-> 0x8000 <= hi) /\
  merge_int32_be hi lo mod 2 ^ 32 = hi * 65536 + lo.
Proof.
  unfold word16, int32. intros Hhi Hlo. rewrite merge_int32_be_arith.
  destruct (Z.gtb_spec (hi * 65536 + lo) 2147483647);
    repeat split; try lia; Z.to_euclidean_division_equations; lia.
Qed.

Lemma merge_int32_be_range_witness :
  word16 0x8000 /\ word16 0 /\
  int32 (merge_int32_be 0x8000 0) /\
  (merge_int32_be 0x8000 0 < 0 <-> 0x8000 <= 0x8000) /\
  merge_int32_be 0x8000 0 mod 2 ^ 32 = 0x8000 * 65536 + 0.
Proof.
  assert (H1 : word16 0x8000) by (unfold word16; lia).
  assert (H2 : word16 0) by (unfold word16; lia).
  split; [exact H1 |]. split; [exact H2 |].
  exact (merge_int32_be_range 0x8000 0 H1 H2).
Defined.

(** X3: encoding then decoding any integer gives its wrap-around into the
    signed 32-bit range, so the round trip gives the value back exactly when
    it is a signed 32-bit value. *)
Theorem merge_split_wraps (v : Z) :
  (exists hi lo,
      split_int32_be v = [hi; lo] /\ merge_int32_be hi lo = wrap32 v) /\
  (roundtrips v <-> int32 v).
Proof.
  assert (Hw : exists hi lo,
             split_int32_be v = [hi; lo] /\ merge_int32_be hi lo = wrap32 v).
  { exists ((v / 65536) mod 65536), (v mod 65536).
    split; [apply split_int32_be_arith |].
    rewrite merge_int32_be_arith. unfold wrap32.
    destruct (Z.gtb_spec ((v / 65536) mod 65536 * 65536 + v mod 65536)
                2147483647);
      Z.to_euclidean_division_equations; lia. }
  split; [exact Hw |].
  destruct Hw as (hi & lo & Hs & Hm). unfold roundtrips, int32. split.
  - intros (hi' & lo' & Hs' & Hm'). rewrite Hs in Hs'.
    injection Hs' as <- <-. rewrite Hm in Hm'. unfold wrap32 in Hm'.
    Z.to_euclidean_division_equations; lia.
  - intros Hv. exists hi, lo. split; [exact Hs |]. rewrite Hm. unfold wrap32.
    Z.to_euclidean_division_equations; lia.
Qed.

(** X4: distinct pairs of 16-bit words decode to distinct values. *)
Theorem merge_int32_be_injective (hi lo hi' lo' : Z) :
  word16 hi -> word16 lo -> word16 hi' -> word16 lo' ->
  merge_int32_be hi lo = merge_int32_be hi' lo' -> hi = hi' /\ lo = lo'.
Proof.
  intros Hhi Hlo Hhi' Hlo' H.
  pose proof (split_merge hi lo Hhi Hlo) as E.
  rewrite H, (split_merge hi' lo' Hhi' Hlo') in E.
  injection E as -> ->. split; reflexivity.
Qed.

Lemma merge_int32_be_injective_witness :
  word16 0xFFFF /\ word16 0xFFFE /\
  merge_int32_be 0xFFFF 0xFFFE = merge_int32_be 0xFFFF 0xFFFE /\
  (0xFFFF = 0xFFFF /\ 0xFFFE = 0xFFFE).
Proof.
  assert (H1 : word16 0xFFFF) by (unfold word16; lia).
  assert (H2 : word16 0xFFFE) by (unfold word16; lia).
  split; [exact H1 |]. split; [exact H2 |]. split; [reflexivity |].
  exact (merge_int32_be_injective _ _ _ _ H1 H2 H1 H2 eq_refl).
Defined.

(** ** Further facts about runs of the loop *)

Module RunFacts.

Lemma warnings_app (l1 l2 : list action) :
  warnings (l1 ++ l2) = (warnings l1 + warnings l2)%nat.
Proof.
  induction l1 as [| [[] [] | d] l1 IH]; cbn [warnings app];
    rewrite ?IH; reflexivity.
Qed.

Lemma errors_app (l1 l2 : list action) :
  errors (l1 ++ l2) = (errors l1 + errors l2)%nat.
Proof.
  induction l1 as [| [[] [] | d] l1 IH]; cbn [errors app];
    rewrite ?IH; reflexivity.
Qed.

(** What a turn appends to the output in a well-formed state. *)
Lemma step_tick_output (now : Q) (s : sim) :
  well_formed (context s) ->
  output (step s (Tick now)) =
  output s ++
  watchdog_logs
    (merge_int32_be (word (hr (context s)) 0xd000)
       (word (hr (context s)) 0xd001))
    (watchdog_timeout s) ++ [Sleep 1].
Proof.
  intros Hs. rewrite (step_tick _ _ Hs). cbn [output tick_effect].
  rewrite <- app_assoc. reflexivity.
Qed.

Lemma step_tick_watchdog_timeout (now : Q) (s : sim) :
  well_formed (context s) ->
  watchdog_timeout (step s (Tick now)) =
  if bool_decide
       (merge_int32_be (word (hr (context s)) 0xd000)
          (word (hr (context s)) 0xd001) <> 0)
  then 0 else watchdog_timeout s + 1.
Proof. intros Hs. rewrite (step_tick _ _ Hs). reflexivity. Qed.

Lemma step_tick_soc_value (now : Q) (s : sim) :
  well_formed (context s) ->
  soc_value (step s (Tick now)) =
  Z.max 1000 (Z.min 9500 (soc_value s + soc_direction now)).
Proof. intros Hs. rewrite (step_tick _ _ Hs). reflexivity. Qed.

Lemma watchdog_word (c : slave_context) (v : Z) :
  well_formed c -> logical (hr c) 0xd000 = Some v ->
  merge_int32_be (word (hr c) 0xd000) (word (hr c) 0xd001) = v.
Proof.
  intros (Hhr & _) H.
  rewrite (logical_word _ _ Hhr) in H by in_table.
  injection H as H. exact H.
Qed.

Lemma errors_run (history : list event) (s : sim) :
  Forall wire_event history -> well_formed (context s) ->
  errors (output (run s history)) = errors (output s).
Proof.
  intros Hh. revert s.
  induction Hh as [| e later He _ IH]; intros s Hs; [reflexivity |].
  rewrite run_cons, IH by (apply well_formed_step; assumption).
  destruct e as [now | r]; [| reflexivity].
  rewrite (step_tick_output _ _ Hs), !errors_app. unfold watchdog_logs.
  repeat case_bool_decide; cbn [errors]; lia.
Qed.

Lemma stale_watchdog_run (clock : list Q) (s : sim) (v : Z) :
  well_formed (context s) ->
  logical (hr (context s)) 0xd000 = Some v -> v <> 0 ->
  watchdog_timeout (run s (map Tick clock)) =
    match clock with [] => watchdog_timeout s | _ => 0 end /\
  warnings (output (run s (map Tick clock))) = warnings (output s).
Proof.
  revert s. induction clock as [| now later IH]; intros s Hs Hv Hne;
    [split; reflexivity |].
  cbn [map]. rewrite run_cons.
  assert (Hs' : well_formed (context (step s (Tick now))))
    by (apply well_formed_step; [exact I | exact Hs]).
  pose proof (step_tick_same_other_banks now s) as (Hhr & _ & _).
  assert (Hv' : logical (hr (context (step s (Tick now)))) 0xd000 = Some v)
    by (rewrite Hhr; exact Hv).
  destruct (IH _ Hs' Hv' Hne) as [Hwt Hwarn].
  pose proof (watchdog_word _ _ Hs Hv) as Hword.
  rewrite Hwt, Hwarn. split.
  - destruct later; [| reflexivity].
    rewrite (step_tick_watchdog_timeout _ _ Hs), Hword.
    rewrite bool_decide_eq_true_2 by exact Hne. reflexivity.
  - rewrite (step_tick_output _ _ Hs), Hword, !warnings_app.
    unfold watchdog_logs. rewrite bool_decide_eq_true_2 by exact Hne.
    cbn [warnings]. lia.
Qed.

Lemma silent_run_counts (history : list event) (s : sim) :
  Forall wire_event history -> well_formed (context s) ->
  watchdog_silent s history ->
  watchdog_timeout (run s history) =
    watchdog_timeout s + Z.of_nat (ticks history) /\
  Z.of_nat (warnings (output (run s history))) =
    Z.of_nat (warnings (output s)) +
    Z.max 0 (Z.min (Z.of_nat (ticks history))
               (watchdog_timeout s + Z.of_nat (ticks history) - 10)).
Proof.
  intros Hh. revert s.
  induction Hh as [| e later He _ IH]; intros s Hs Hsil.
  - cbn [run foldl ticks]. lia.
  - rewrite run_cons. destruct Hsil as [Hzero Hsil].
    pose proof (well_formed_step _ _ He Hs) as Hs'.
    destruct (IH _ Hs' Hsil) as [Hwt Hwarn]. rewrite Hwt, Hwarn.
    destruct e as [now | r]; [| cbn [ticks step watchdog_timeout output]; lia].
    pose proof (watchdog_word _ _ Hs Hzero) as Hword.
    rewrite (step_tick_watchdog_timeout _ _ Hs), (step_tick_output _ _ Hs).
    rewrite Hword, !warnings_app. unfold watchdog_logs.
    rewrite !bool_decide_eq_false_2 by lia. cbn [ticks].
    case_bool_decide; cbn [warnings]; lia.
Qed.

End RunFacts.

(** ** Further properties of the loop *)

Import RunFacts.

(** X5: however ticks and client requests follow one another from startup,
    the body of a turn never raises: no error is ever logged. *)
Theorem no_error_logged (history : list event) :
  Forall wire_event history ->
  errors (output (run startup history)) = 0%nat.
Proof.
  intros Hh. rewrite (errors_run history startup Hh well_formed_store).
  reflexivity.
Qed.

Lemma no_error_logged_witness :
  Forall wire_event
    [Client (Write 16 0xd000 [0; 1]); Tick 0; Client (Read 4 0 1); Tick 45] /\
  errors
    (output
       (run startup
          [Client (Write 16 0xd000 [0; 1]); Tick 0; Client (Read 4 0 1);
           Tick 45])) = 0%nat.
Proof.
  assert (H : Forall wire_event
                [Client (Write 16 0xd000 [0; 1]); Tick 0;
                 Client (Read 4 0 1); Tick 45])
    by (repeat constructor; unfold word16; lia).
  split; [exact H | exact (no_error_logged _ H)].
Defined.

(** X6: the loop tests the watchdog pair for being nonzero, not for having
    changed: once the pair decodes to a nonzero value, turns that follow
    with no client request keep the counter at 0 and log no warning, however
    many they are. *)
Theorem stale_watchdog_never_times_out (s : sim) (v : Z) (clock : list Q) :
  reachable s -> logical (hr (context s)) 0xd000 = Some v -> v <> 0 ->
  watchdog_timeout (run s (map Tick clock)) =
    match clock with [] => watchdog_timeout s | _ => 0 end /\
  warnings (output (run s (map Tick clock))) = warnings (output s).
Proof.
  intros Hr Hv Hne. apply (stale_watchdog_run clock s v); try assumption.
  apply reachable_well_formed, Hr.
Qed.

Lemma stale_watchdog_never_times_out_witness :
  reachable (run startup [Client (Write 6 0xd001 [1])]) /\
  logical (hr (context (run startup [Client (Write 6 0xd001 [1])]))) 0xd000 =
    Some 1 /\
  1 <> 0 /\
  watchdog_timeout
    (run (run startup [Client (Write 6 0xd001 [1])])
       (map Tick (repeat 0%Q 50))) = 0 /\
  warnings
    (output
       (run (run startup [Client (Write 6 0xd001 [1])])
          (map Tick (repeat 0%Q 50)))) = 0%nat.
Proof.
  assert (H : reachable (run startup [Client (Write 6 0xd001 [1])])).
  { eexists. split; [| reflexivity]. repeat constructor; unfold word16; lia. }
  assert (Hv : logical
                 (hr (context (run startup [Client (Write 6 0xd001 [1])])))
                 0xd000 = Some 1) by reflexivity.
  assert (Hne : 1 <> 0) by lia.
  split; [exact H |]. split; [exact Hv |]. split; [exact Hne |].
  exact (stale_watchdog_never_times_out _ 1 (repeat 0%Q 50) H Hv Hne).
Defined.

(** X7: while the watchdog pair decodes to zero the counter grows by one a
    turn and is never reset, and the warning is logged again in every turn
    that leaves the counter above 10: [n] silent turns from a counter [c]
    log max(0, min(n, c + n - 10)) warnings. *)
Theorem silent_ticks_warn_every_turn (s : sim) (history : list event) :
  reachable s -> Forall wire_event history -> watchdog_silent s history ->
  watchdog_timeout (run s history) =
    watchdog_timeout s + Z.of_nat (ticks history) /\
  Z.of_nat (warnings (output (run s history))) =
    Z.of_nat (warnings (output s)) +
    Z.max 0 (Z.min (Z.of_nat (ticks history))
               (watchdog_timeout s + Z.of_nat (ticks history) - 10)).
Proof.
  intros Hr Hh Hsil. apply silent_run_counts; try assumption.
  apply reachable_well_formed, Hr.
Qed.

Lemma silent_ticks_warn_every_turn_witness :
  reachable startup /\
  Forall wire_event (repeat (Tick 0) 15) /\
  watchdog_silent startup (repeat (Tick 0) 15) /\
  watchdog_timeout (run startup (repeat (Tick 0) 15)) = 15 /\
  Z.of_nat (warnings (output (run startup (repeat (Tick 0) 15)))) = 5.
Proof.
  assert (H : reachable startup).
  { exists []. split; [constructor | reflexivity]. }
  assert (Hh : Forall wire_event (repeat (Tick 0) 15)) by (repeat constructor).
  assert (Hsil : watchdog_silent startup (repeat (Tick 0) 15))
    by (vm_compute; repeat split).
  split; [exact H |]. split; [exact Hh |]. split; [exact Hsil |].
  exact (silent_ticks_warn_every_turn startup _ H Hh Hsil).
Defined.

(** ** Further facts about the state of charge and the registers a turn
       touches *)

Module TickFacts.

Lemma Qfloor_unique (x : Q) (k : Z) :
  (inject_Z k <= x)%Q -> (x < inject_Z (k + 1))%Q -> Qfloor x = k.
Proof.
  intros Hlo Hhi.
  pose proof (Qfloor_le x) as H1. pose proof (Qlt_floor x) as H2.
  assert (Qfloor x < k + 1)
    by (rewrite Zlt_Qlt; eapply Qle_lt_trans; eassumption).
  assert (k < Qfloor x + 1)
    by (rewrite Zlt_Qlt; eapply Qle_lt_trans; eassumption).
  lia.
Qed.

Lemma mod60_phase (k : Z) (r : Q) :
  (0 <= r)%Q -> (r < 60)%Q -> (mod60 (inject_Z (60 * k) + r) == r)%Q.
Proof.
  intros H0 H60. unfold mod60.
  assert (E : Qfloor ((inject_Z (60 * k) + r) / 60) = k).
  { apply Qfloor_unique; rewrite ?inject_Z_plus, ?inject_Z_mult;
      change (inject_Z 60) with 60%Q; change (inject_Z 1) with 1%Q.
    - apply Qle_shift_div_l; [reflexivity |]. lra.
    - apply Qlt_shift_div_r; [reflexivity |]. lra. }
  rewrite E, inject_Z_mult. change (inject_Z 60) with 60%Q. lra.
Qed.

Lemma soc_range_run (history : list event) (s : sim) :
  Forall wire_event history -> well_formed (context s) ->
  1000 <= soc_value s <= 9500 ->
  1000 <= soc_value (run s history) <= 9500.
Proof.
  intros Hh. revert s.
  induction Hh as [| e later He _ IH]; intros s Hs Hsoc; [exact Hsoc |].
  rewrite run_cons. apply IH; [apply well_formed_step; assumption |].
  destruct e as [now | r]; [| exact Hsoc].
  rewrite (step_tick_soc_value _ _ Hs). lia.
Qed.

Lemma reachable_soc_range (s : sim) :
  reachable s -> 1000 <= soc_value s <= 9500.
Proof.
  intros (history & Hh & ->).
  apply soc_range_run; [exact Hh | apply well_formed_store | cbn; lia].
Qed.

Lemma soc_heading_run (d : Z) (history : list event) (s : sim) :
  d = -1 \/ d = 1 ->
  Forall wire_event history -> heading d history ->
  well_formed (context s) -> 1000 <= soc_value s <= 9500 ->
  soc_value (run s history) =
  Z.max 1000 (Z.min 9500 (soc_value s + d * Z.of_nat (ticks history))).
Proof.
  intros Hd1 Hh Hd. revert s.
  induction Hh as [| e later He _ IH]; intros s Hs Hsoc.
  - cbn [run foldl ticks]. lia.
  - rewrite run_cons. apply Forall_cons in Hd as [Hd Hlater].
    pose proof (well_formed_step _ _ He Hs) as Hs'.
    destruct e as [now | r].
    + rewrite (IH Hlater _ Hs')
        by (rewrite (step_tick_soc_value _ _ Hs); lia).
      rewrite (step_tick_soc_value _ _ Hs), Hd. cbn [ticks].
      destruct Hd1 as [-> | ->]; lia.
    + rewrite (IH Hlater _ Hs' Hsoc). reflexivity.
Qed.

Lemma soc_without_clients (history : list event) (s1 s2 : sim) :
  Forall wire_event history ->
  well_formed (context s1) -> well_formed (context s2) ->
  soc_value s1 = soc_value s2 ->
  soc_value (run s1 history) = soc_value (run s2 (turns_only history)).
Proof.
  intros Hh. revert s1 s2.
  induction Hh as [| e later He _ IH]; intros s1 s2 H1 H2 Hsoc; [exact Hsoc |].
  rewrite run_cons. destruct e as [now | r]; cbn [turns_only].
  - rewrite run_cons.
    apply IH; try (apply well_formed_step; [exact I | assumption]).
    rewrite (step_tick_soc_value _ _ H1), (step_tick_soc_value _ _ H2), Hsoc.
    reflexivity.
  - apply IH; [apply well_formed_step; assumption | exact H2 | exact Hsoc].
Qed.

Lemma word_insert_ne (blk : gmap Z Z) (a w x : Z) :
  a <> x -> word (<[a := w]> blk) x = word blk x.
Proof. intros H. unfold word. rewrite lookup_insert_ne by exact H. done. Qed.

Lemma well_formed_poke_hr (a w : Z) (s : sim) :
  well_formed (context s) -> In a table_addresses -> word16 w ->
  well_formed (context (poke_hr a w s)).
Proof.
  intros (Hhr & Hir & Hco & Hdi & Hw) Ha Hw16.
  unfold poke_hr, well_formed. reduce_state. split_and!; try assumption.
  - rewrite dom_insert_L, Hhr. apply table_addresses_dom in Ha.
    apply subseteq_union_1_L, singleton_subseteq_l, Ha.
  - apply map_Forall_insert_2; assumption.
Qed.

End TickFacts.

(** ** Further properties of the state of charge and of what a turn
       touches *)

Import TickFacts.

(** X8: a clock reading [60 k + r] with [0 <= r < 60] lowers the state of
    charge when [r < 30] and raises it otherwise; the direction depends on
    the phase in the wall-clock minute alone. *)
Theorem soc_direction_phase (k : Z) (r : Q) :
  (0 <= r)%Q -> (r < 60)%Q ->
  ((r < 30)%Q -> soc_direction (inject_Z (60 * k) + r) = -1) /\
  ((30 <= r)%Q -> soc_direction (inject_Z (60 * k) + r) = 1).
Proof.
  intros H0 H60. pose proof (mod60_phase k r H0 H60) as E.
  unfold soc_direction. split; intros Hr.
  - destruct (Qle_bool 30 (mod60 (inject_Z (60 * k) + r))) eqn:B;
      [| reflexivity].
    apply Qle_bool_iff in B. rewrite E in B. lra.
  - destruct (Qle_bool 30 (mod60 (inject_Z (60 * k) + r))) eqn:B;
      [reflexivity |].
    assert (B' : Qle_bool 30 (mod60 (inject_Z (60 * k) + r)) = true)
      by (apply Qle_bool_iff; rewrite E; exact Hr).
    congruence.
Qed.

Lemma soc_direction_phase_witness :
  (0 <= 59 # 2)%Q /\ (59 # 2 < 60)%Q /\
  ((59 # 2 < 30)%Q ->
   soc_direction (inject_Z (60 * 29369600) + (59 # 2)) = -1) /\
  ((30 <= 59 # 2)%Q ->
   soc_direction (inject_Z (60 * 29369600) + (59 # 2)) = 1).
Proof.
  assert (H1 : (0 <= 59 # 2)%Q) by (unfold Qle; cbn; lia).
  assert (H2 : (59 # 2 < 60)%Q) by (unfold Qlt; cbn; lia).
  split; [exact H1 |]. split; [exact H2 |].
  exact (soc_direction_phase 29369600 (59 # 2) H1 H2).
Defined.

(** X9: over a history whose turns all fall in the lowering half-minute,
    the state of charge drops by one a turn from its value down to the floor
    1000 and stays there; over one whose turns all fall in the raising half
    it climbs by one a turn up to the ceiling 9500.  Client requests between
    the turns change nothing. *)
Theorem soc_trajectory (s : sim) (history : list event) :
  reachable s -> Forall wire_event history ->
  (heading (-1) history ->
   soc_value (run s history) =
   Z.max 1000 (soc_value s - Z.of_nat (ticks history))) /\
  (heading 1 history ->
   soc_value (run s history) =
   Z.min 9500 (soc_value s + Z.of_nat (ticks history))).
Proof.
  intros Hr Hh. pose proof (reachable_well_formed _ Hr) as Hs.
  pose proof (reachable_soc_range _ Hr) as Hsoc.
  split; intros Hd.
  - rewrite (soc_heading_run (-1) _ _ (or_introl eq_refl) Hh Hd Hs Hsoc). lia.
  - rewrite (soc_heading_run 1 _ _ (or_intror eq_refl) Hh Hd Hs Hsoc). lia.
Qed.

Lemma soc_trajectory_witness :
  reachable startup /\
  Forall wire_event (repeat (Tick 0) 20) /\
  heading (-1) (repeat (Tick 0) 20) /\
  soc_value (run startup (repeat (Tick 0) 20)) = 4980.
Proof.
  assert (H : reachable startup).
  { exists []. split; [constructor | reflexivity]. }
  assert (Hh : Forall wire_event (repeat (Tick 0) 20)) by (repeat constructor).
  assert (Hd : heading (-1) (repeat (Tick 0) 20)) by (repeat constructor).
  split; [exact H |]. split; [exact Hh |]. split; [exact Hd |].
  exact (proj1 (soc_trajectory startup _ H Hh) Hd).
Defined.

(** X10: no client request reaches the state of charge: after any history
    it is what the turns of the history alone would have made it. *)
Theorem soc_ignores_clients (s : sim) (history : list event) :
  reachable s -> Forall wire_event history ->
  soc_value (run s history) = soc_value (run s (turns_only history)).
Proof.
  intros Hr Hh. apply reachable_well_formed in Hr.
  apply soc_without_clients; try assumption. reflexivity.
Qed.

Lemma soc_ignores_clients_witness :
  reachable startup /\
  Forall wire_event
    [Client (Write 16 0xd004 [0xFFFF; 0xFF00]); Tick 0; Tick 31] /\
  soc_value
    (run startup
       [Client (Write 16 0xd004 [0xFFFF; 0xFF00]); Tick 0; Tick 31]) =
  soc_value (run startup [Tick 0; Tick 31]).
Proof.
  assert (H : reachable startup).
  { exists []. split; [constructor | reflexivity]. }
  assert (Hh : Forall wire_event
                 [Client (Write 16 0xd004 [0xFFFF; 0xFF00]); Tick 0; Tick 31])
    by (repeat constructor; unfold word16; lia).
  split; [exact H |]. split; [exact Hh |].
  exact (soc_ignores_clients startup _ H Hh).
Defined.

(** X11: a turn reads the holding bank at 0xd000 to 0xd007 only: changing
    any other declared holding register, the clear-faults pair at 0xd00a and
    0xd00b included, changes nothing of what the turn leaves in the input
    bank, the state of charge, the watchdog counter or the output. *)
Theorem tick_reads_only_commands (s : sim) (a w : Z) (now : Q) :
  reachable s -> In a table_addresses -> ~ In a read_addresses ->
  word16 w ->
  ir (context (step (poke_hr a w s) (Tick now))) =
    ir (context (step s (Tick now))) /\
  soc_value (step (poke_hr a w s) (Tick now)) =
    soc_value (step s (Tick now)) /\
  watchdog_timeout (step (poke_hr a w s) (Tick now)) =
    watchdog_timeout (step s (Tick now)) /\
  output (step (poke_hr a w s) (Tick now)) = output (step s (Tick now)).
Proof.
  intros Hr Ha Hn Hw. apply reachable_well_formed in Hr.
  pose proof (well_formed_poke_hr a w s Hr Ha Hw) as Hp.
  assert (E : forall x, In x read_addresses ->
                word (hr (context (poke_hr a w s))) x =
                word (hr (context s)) x).
  { intros x Hx. unfold poke_hr. reduce_state. apply word_insert_ne.
    intros ->. exact (Hn Hx). }
  rewrite (step_tick _ _ Hr), (step_tick _ _ Hp).
  cbn [context soc_value watchdog_timeout output].
  unfold tick_effect, mirror; cbv zeta. reduce_state.
  change (53250 + 1) with 53251. change (53252 + 1) with 53253.
  change (53254 + 1) with 53255.
  rewrite !E by in_table. unfold poke_hr. reduce_state.
  split_and!; reflexivity.
Qed.

Lemma tick_reads_only_commands_witness :
  reachable startup /\ In 0xd00a table_addresses /\
  ~ In 0xd00a read_addresses /\ word16 1 /\
  ir (context (step (poke_hr 0xd00a 1 startup) (Tick 0))) =
    ir (context (step startup (Tick 0))) /\
  soc_value (step (poke_hr 0xd00a 1 startup) (Tick 0)) =
    soc_value (step startup (Tick 0)) /\
  watchdog_timeout (step (poke_hr 0xd00a 1 startup) (Tick 0)) =
    watchdog_timeout (step startup (Tick 0)) /\
  output (step (poke_hr 0xd00a 1 startup) (Tick 0)) =
    output (step startup (Tick 0)).
Proof.
  assert (H : reachable startup).
  { exists []. split; [constructor | reflexivity]. }
  assert (Ha : In 0xd00a table_addresses) by in_table.
  assert (Hn : ~ In 0xd00a read_addresses).
  { vm_compute. intros C. repeat (destruct C as [C | C]; [discriminate C |]).
    exact C. }
  assert (Hw : word16 1) by (unfold word16; lia).
  split; [exact H |]. split; [exact Ha |]. split; [exact Hn |].
  split; [exact Hw |].
  exact (tick_reads_only_commands startup 0xd00a 1 0 H Ha Hn Hw).
Defined.

(** X12: a turn writes the input bank at its eight input-register addresses
    only; every other register of the input bank keeps its word. *)
Theorem tick_writes_only_inputs (s : sim) (a : Z) (now : Q) :
  reachable s -> ~ In a input_addresses ->
  ir (context (step s (Tick now))) !! a = ir (context s) !! a.
Proof.
  intros Hr Hn. apply reachable_well_formed in Hr.
  rewrite (step_tick _ _ Hr). cbn [context]. rewrite (tick_effect_ir _ _ Hr).
  repeat (rewrite lookup_insert_ne;
          [| intros <-; apply Hn; unfold input_addresses; in_table]).
  reflexivity.
Qed.

Lemma tick_writes_only_inputs_witness :
  reachable startup /\ ~ In 0xd004 input_addresses /\
  ir (context (step startup (Tick 0))) !! 0xd004 =
  ir (context startup) !! 0xd004.
Proof.
  assert (H : reachable startup).
  { exists []. split; [constructor | reflexivity]. }
  assert (Hn : ~ In 0xd004 input_addresses).
  { vm_compute. intros C. repeat (destruct C as [C | C]; [discriminate C |]).
    exact C. }
  split; [exact H |]. split; [exact Hn |].
  exact (tick_writes_only_inputs startup 0xd004 0 H Hn).
Defined.

(** X13: a second turn with no client request in between leaves the six
    mirror registers as the first turn left them. *)
Theorem second_tick_keeps_mirrors (s : sim) (a : Z) (now1 now2 : Q) :
  reachable s -> In a mirror_addresses ->
  ir (context (step (step s (Tick now1)) (Tick now2))) !! a =
  ir (context (step s (Tick now1))) !! a.
Proof.
  intros Hr Ha. apply reachable_well_formed in Hr.
  pose proof (well_formed_step s (Tick now1) I Hr) as Hr1.
  pose proof (step_tick_same_other_banks now1 s) as (Hhr & _ & _).
  rewrite (step_tick _ _ Hr1). cbn [context].
  rewrite (tick_effect_ir _ _ Hr1), Hhr.
  rewrite (step_tick _ _ Hr). cbn [context]. rewrite (tick_effect_ir _ _ Hr).
  unfold mirror_addresses in Ha. cbn [In] in Ha.
  repeat (destruct Ha as [<- | Ha];
          [repeat first [ rewrite lookup_insert_eq
                        | rewrite lookup_insert_ne by discriminate ];
           reflexivity |]).
  contradiction.
Qed.

Lemma second_tick_keeps_mirrors_witness :
  reachable (run startup [Client (Write 16 0xd006 [0x8000; 7])]) /\
  In 0x251b mirror_addresses /\
  ir (context
        (step (step (run startup [Client (Write 16 0xd006 [0x8000; 7])])
                 (Tick 0)) (Tick 1))) !! 0x251b =
  ir (context
        (step (run startup [Client (Write 16 0xd006 [0x8000; 7])]) (Tick 0)))
    !! 0x251b.
Proof.
  assert (H : reachable (run startup [Client (Write 16 0xd006 [0x8000; 7])])).
  { eexists. split; [| reflexivity]. repeat constructor; unfold word16; lia. }
  assert (Ha : In 0x251b mirror_addresses) by in_table.
  split; [exact H |]. split; [exact Ha |].
  exact (second_tick_keeps_mirrors _ 0x251b 0 1 H Ha).
Defined.
